(** * Railway platform display: the scheduling core of [src/app.js]

    A shallow embedding of the station board's core (time arithmetic, status
    derivation, greedy platform assignment and the store operations) and the
    properties of it that the specification states.

    Conventions of the embedding.
    - JavaScript numbers are restricted to integers and modelled by [Z]:
      minutes of the day, delays, platform numbers and the virtual clock.
      The free-at array of [assignPlatforms] also holds [-Infinity], and
      [NaN] once it is read outside its bounds, so its cells have a type of
      their own ([num]).
    - Train objects are mutated through several arrays that share them
      ([state.trains] and the sorted copy made by [assignPlatforms]), so
      objects live in a store (a list addressed by position) and arrays hold
      references into it. Object identity ([o !== tr]) is reference
      inequality.
    - DOM rendering and [localStorage] persistence do not touch the state
      and are left out: [renderAll] is [computeDerived]. *)

From Stdlib Require Import ZArith Lia Bool Ascii String Sorted.
From stdpp Require Import base option list strings pretty.

Open Scope Z_scope.

(** ** Utilities *)

Fixpoint repeatChar (k : nat) (c : ascii) : string :=
  match k with
  | O => EmptyString
  | S k' => String c (repeatChar k' c)
  end.

(** [s.padStart(n, c)] for a one-character filler [c]. *)
Definition padStart (n : nat) (c : ascii) (s : string) : string :=
  repeatChar (n - String.length s) c +:+ s.

(** [pad2 = (n) => String(n).padStart(2, "0")] *)
Definition pad2 (n : Z) : string := padStart 2 "0" (pretty n).

(** [clamp = (n, lo, hi) => Math.max(lo, Math.min(hi, n))] *)
Definition clamp (n lo hi : Z) : Z := Z.max lo (Z.min hi n).

(** ** TimeMath *)

(** [s.split(sep)] for a one-character separator. *)
Fixpoint split (sep : ascii) (s : string) : list string :=
  match s with
  | EmptyString => [EmptyString]
  | String c s' =>
      if Ascii.eqb c sep then EmptyString :: split sep s'
      else match split sep s' with
           | x :: xs => String c x :: xs
           | [] => [String c EmptyString]
           end
  end.

(** White space skipped by [parseInt] (the one-byte characters among it). *)
Definition isWhiteSpace (c : ascii) : bool :=
  let n := nat_of_ascii c in
  (n =? 9)%nat || (n =? 10)%nat || (n =? 11)%nat || (n =? 12)%nat
  || (n =? 13)%nat || (n =? 32)%nat.

Definition digitVal (c : ascii) : option Z :=
  let n := Z.of_nat (nat_of_ascii c) in
  if (48 <=? n) && (n <=? 57) then Some (n - 48) else None.

Fixpoint skipWhiteSpace (s : string) : string :=
  match s with
  | String c s' => if isWhiteSpace c then skipWhiteSpace s' else s
  | EmptyString => s
  end.

(** The longest prefix of decimal digits; [None] when there is no digit. *)
Fixpoint readDigits (acc : option Z) (s : string) : option Z :=
  match s with
  | String c s' =>
      match digitVal c with
      | Some d => readDigits (Some (10 * default 0 acc + d)) s'
      | None => acc
      end
  | EmptyString => acc
  end.

(** [parseInt(s, 10)]; [None] stands for [NaN]. *)
Definition parseInt (s : string) : option Z :=
  match skipWhiteSpace s with
  | String "-" r => Z.opp <$> readDigits None r
  | String "+" r => readDigits None r
  | r => readDigits None r
  end.

(** The argument of [toMinutes]: a number or an "HH:MM" string. *)
Inductive TimeInput :=
  | TNum (n : Z)
  | TStr (s : string).

(** [toMinutes]; [None] stands for [NaN] (a part that does not parse, or a
    string without a colon, whose second part is [undefined]). *)
Definition toMinutes (hhmm : TimeInput) : option Z :=
  match hhmm with
  | TNum n => Some n
  | TStr s =>
      let parts := parseInt <$> split ":" s in
      match mjoin (parts !! 0%nat), mjoin (parts !! 1%nat) with
      | Some h, Some m => Some (h * 60 + m)
      | _, _ => None
      end
  end.

(** [toHHMM]: the remainder operator [%] of JavaScript truncates ([Z.rem]);
    [Math.floor(m / 60)] is the floor division of [Z]. *)
Definition toHHMM (minutes : Z) : string :=
  let m := Z.rem (Z.rem minutes (24 * 60) + 24 * 60) (24 * 60) in
  let h := m / 60 in
  let mm := Z.rem m 60 in
  pad2 h +:+ ":" +:+ pad2 mm.

(** ** Core data model *)

Inductive Status :=
  | ON_TIME | DELAYED | BOARDING | DEPARTED | ARRIVED | CANCELLED.

#[global] Instance Status_eq_dec : EqDecision Status.
Proof. solve_decision. Defined.

(** A train object. [platform] is the manual request ([None] is [null]);
    [assignedPlatform] is the property written by [assignPlatforms] ([None]
    while the object does not have it yet). *)
Record Train := mkTrain {
  id : string;
  trainNo : string;
  from : string;
  to : string;
  arrive : Z;
  depart : Z;
  delayMin : Z;
  status : Status;
  platform : option Z;
  assignedPlatform : option Z;
}.

Definition set_status (s : Status) (t : Train) : Train :=
  mkTrain (id t) (trainNo t) (from t) (to t) (arrive t) (depart t)
          (delayMin t) s (platform t) (assignedPlatform t).

Definition set_delayMin (d : Z) (t : Train) : Train :=
  mkTrain (id t) (trainNo t) (from t) (to t) (arrive t) (depart t)
          d (status t) (platform t) (assignedPlatform t).

Definition set_assignedPlatform (p : option Z) (t : Train) : Train :=
  mkTrain (id t) (trainNo t) (from t) (to t) (arrive t) (depart t)
          (delayMin t) (status t) (platform t) p.

Record Sim := mkSim {
  virtualMinutes : Z;
  autoAdvance : bool;
  speed : Z;
  lastTick : Z;
}.

(** The [state] object. [filterStatus] is ["all"] ([None]) or a status;
    [trains] holds references to the train objects of [store]. *)
Record State := mkState {
  store : list Train;
  trains : list nat;
  announcements : list string;
  numPlatforms : nat;
  sim : Sim;
  filterStatus : option Status;
  editingId : option string;
}.

Definition set_store (h : list Train) (st : State) : State :=
  mkState h (trains st) (announcements st) (numPlatforms st) (sim st)
          (filterStatus st) (editingId st).

Definition set_trains (l : list nat) (st : State) : State :=
  mkState (store st) l (announcements st) (numPlatforms st) (sim st)
          (filterStatus st) (editingId st).

Definition set_announcements (a : list string) (st : State) : State :=
  mkState (store st) (trains st) a (numPlatforms st) (sim st)
          (filterStatus st) (editingId st).

(** ** Scheduling and assignment *)

(** The object returned by [timeWithDelay]. *)
Record TimeWindow := mkWindow { twdArrive : Z; twdDepart : Z }.

Definition timeWithDelay (train : Train) : TimeWindow :=
  mkWindow
    (arrive train + (if decide (status train = DELAYED) then delayMin train else 0))
    (depart train + (if decide (status train = DELAYED) then delayMin train else 0)).

Definition intervalsOverlap (aStart aEnd bStart bEnd : Z) : bool :=
  (aStart <? bEnd) && (bStart <? aEnd).

(** [Array.prototype.sort] with the comparator [key(a) - key(b)] on integer
    keys: the sort is stable, so its result is the one of any stable sort;
    here insertion from the right, each element going before its equals. *)
Fixpoint insertBy (key : nat -> Z) (x : nat) (l : list nat) : list nat :=
  match l with
  | [] => [x]
  | y :: l' => if key x <=? key y then x :: l else y :: insertBy key x l'
  end.

Definition sortBy (key : nat -> Z) (l : list nat) : list nat :=
  foldr (insertBy key) [] l.

(** The sort keys read the referenced object; every reference of an array
    resolves (arrays are only built from allocated objects), and the key of
    one that would not is immaterial. *)
Definition arriveKey (h : list Train) (r : nat) : Z :=
  from_option (fun t => twdArrive (timeWithDelay t)) 0 (h !! r).

Definition departKey (h : list Train) (r : nat) : Z :=
  from_option (fun t => twdDepart (timeWithDelay t)) 0 (h !! r).

(** The cells of [platformEnd]. *)
Inductive num :=
  | NegInf
  | Fin (z : Z)
  | NaN.

#[global] Instance num_eq_dec : EqDecision num.
Proof. solve_decision. Defined.

(** [a <= b], [a < b] and [Math.max(a, b)]; comparisons with [NaN] are
    false and [Math.max] of a [NaN] is [NaN]. *)
Definition num_le (a b : num) : bool :=
  match a, b with
  | NaN, _ | _, NaN => false
  | NegInf, _ => true
  | Fin _, NegInf => false
  | Fin x, Fin y => x <=? y
  end.

Definition num_lt (a b : num) : bool :=
  match a, b with
  | NaN, _ | _, NaN => false
  | _, NegInf => false
  | NegInf, Fin _ => true
  | Fin x, Fin y => x <? y
  end.

Definition mathMax (a b : num) : num :=
  match a, b with
  | NaN, _ | _, NaN => NaN
  | NegInf, y => y
  | x, NegInf => x
  | Fin x, Fin y => Fin (Z.max x y)
  end.

(** [platformEnd[i]] used as a number: outside the array the read is
    [undefined], which converts to [NaN]. *)
Definition readEnd (platformEnd : list num) (i : nat) : num :=
  default NaN (platformEnd !! i).

(** [platformEnd[i] = v]: inside the array the cell is replaced; at or past
    its length the array grows up to [i], the cells in between being holes,
    which read as [undefined] and so as [NaN]. *)
Definition writeEnd (platformEnd : list num) (i : nat) (v : num) : list num :=
  if (i <? length platformEnd)%nat then <[i := v]> platformEnd
  else platformEnd ++ replicate (i - length platformEnd) NaN ++ [v].

(** [o !== tr && o.platform === tr.platform && intervalsOverlap(...)], for
    the object [o] behind reference [r'] and the current train [tr] behind
    [r]. *)
Definition conflictsWith (h : list Train) (r : nat) (tr : Train) (r' : nat) : bool :=
  match h !! r' with
  | Some o =>
      negb (r' =? r)%nat
      && bool_decide (platform o = platform tr)
      && intervalsOverlap (twdArrive (timeWithDelay o)) (twdDepart (timeWithDelay o))
                          (twdArrive (timeWithDelay tr)) (twdDepart (timeWithDelay tr))
  | None => false
  end.

(** The manual request: [Some p] (a zero-based index) when [tr.platform]
    is a number and no other train of [sorted] conflicts. The clamp is at
    least 1, so the index is not negative. *)
Definition manualChoice (sorted : list nat) (numPlatforms : nat)
    (h : list Train) (r : nat) (tr : Train) : option nat :=
  match platform tr with
  | Some q =>
      let p := Z.to_nat (clamp q 1 (Z.of_nat numPlatforms) - 1) in
      if existsb (conflictsWith h r tr) sorted then None else Some p
  | None => None
  end.

(** [for (i = 0; i < numPlatforms; i++) if (platformEnd[i] <= arrive) {
    assigned = i; break; }]. The loop before it in the source has an empty
    body. *)
Definition firstFree (platformEnd : list num) (numPlatforms : nat) (arr : Z)
    : option nat :=
  List.find (fun i => num_le (readEnd platformEnd i) (Fin arr)) (seq 0 numPlatforms).

(** The platform that frees up earliest: [best] after the loop from 1. *)
Definition earliestFree (platformEnd : list num) (numPlatforms : nat) : nat :=
  fst (foldl (fun '(best, bestEnd) i =>
                if num_lt (readEnd platformEnd i) bestEnd
                then (i, readEnd platformEnd i) else (best, bestEnd))
             (0%nat, readEnd platformEnd 0) (seq 1 (numPlatforms - 1))).

(** The zero-based platform chosen for [tr]. *)
Definition choosePlatform (sorted : list nat) (numPlatforms : nat)
    (h : list Train) (platformEnd : list num) (r : nat) (tr : Train) : nat :=
  match manualChoice sorted numPlatforms h r tr with
  | Some p => p
  | None =>
      match firstFree platformEnd numPlatforms (twdArrive (timeWithDelay tr)) with
      | Some i => i
      | None => earliestFree platformEnd numPlatforms
      end
  end.

(** One iteration of [for (const tr of sorted)] on the store and the
    free-at array. *)
Definition assignOne (sorted : list nat) (numPlatforms : nat)
    (s : list Train * list num) (r : nat) : list Train * list num :=
  let '(h, platformEnd) := s in
  match h !! r with
  | Some tr =>
      let assigned := choosePlatform sorted numPlatforms h platformEnd r tr in
      let platformEnd' :=
        writeEnd platformEnd assigned
          (mathMax (readEnd platformEnd assigned) (Fin (twdDepart (timeWithDelay tr)))) in
      (<[r := set_assignedPlatform (Some (Z.of_nat assigned + 1)) tr]> h, platformEnd')
  | None => s
  end.

(** The whole loop, from the store [h] and [new Array(n).fill(-Infinity)]. *)
Definition assignLoop (h : list Train) (sorted : list nat) (numPlatforms : nat)
    : list Train * list num :=
  foldl (assignOne sorted numPlatforms) (h, replicate numPlatforms NegInf) sorted.

(** [assignPlatforms(trains, numPlatforms)]: the store after the call and
    the returned array [sorted]. *)
Definition assignPlatforms (h : list Train) (trains : list nat) (numPlatforms : nat)
    : list Train * list nat :=
  let sorted := sortBy (arriveKey h) trains in
  (fst (assignLoop h sorted numPlatforms), sorted).

(** ** Status derivation and recomputation *)

(** The status chain of [computeDerived] for a train that is not
    cancelled; the window is taken with the status the train has on entry. *)
Definition deriveStatus (vm : Z) (tr : Train) : Status :=
  let w := timeWithDelay tr in
  if vm >=? twdDepart w + 5 then DEPARTED
  else if (vm >=? twdDepart w - 5) && (vm <? twdDepart w + 5) then BOARDING
  else if (vm >=? twdArrive w) && (vm <? twdDepart w - 5) then ARRIVED
  else if delayMin tr >? 0 then DELAYED
  else ON_TIME.

(** One iteration of [for (const tr of state.trains)]. *)
Definition updateStatus (vm : Z) (h : list Train) (r : nat) : list Train :=
  match h !! r with
  | Some tr =>
      if decide (status tr = CANCELLED) then h
      else <[r := set_status (deriveStatus vm tr) tr]> h
  | None => h
  end.

Definition statusPass (vm : Z) (h : list Train) (trains : list nat) : list Train :=
  foldl (updateStatus vm) h trains.

(** [computeDerived]: statuses, platform assignment (its returned array is
    dropped), then [state.trains] sorted in place by effective departure. *)
Definition computeDerived (st : State) : State :=
  let vm := virtualMinutes (sim st) in
  let h1 := statusPass vm (store st) (trains st) in
  let h2 := fst (assignPlatforms h1 (trains st) (numPlatforms st)) in
  set_trains (sortBy (departKey h2) (trains st)) (set_store h2 st).

(** ** Announcements *)

(** [announce]: newest first, at most six entries. *)
Definition announce (message : string) (st : State) : State :=
  let ts := toHHMM (virtualMinutes (sim st)) in
  set_announcements
    (take 6 (("[" +:+ ts +:+ "] " +:+ message) :: announcements st)) st.

Definition renderAll (st : State) : State := computeDerived st.

(** ** Actions *)

(** [trains.find((t) => t.id === id)]: the first referenced object with
    that id, together with its reference. *)
Fixpoint findById (h : list Train) (i : string) (trains : list nat)
    : option (nat * Train) :=
  match trains with
  | [] => None
  | r :: rest =>
      match h !! r with
      | Some t => if String.eqb (id t) i then Some (r, t) else findById h i rest
      | None => findById h i rest
      end
  end.

Definition findTrain (st : State) (i : string) : option (nat * Train) :=
  findById (store st) i (trains st).

(** The [updates] object of [updateTrain]: the properties it carries. *)
Record Updates := mkUpdates {
  u_trainNo : option string;
  u_from : option string;
  u_to : option string;
  u_arrive : option Z;
  u_depart : option Z;
  u_platform : option (option Z);
  u_status : option Status;
  u_delayMin : option Z;
}.

(** [Object.assign(tr, updates)] *)
Definition assignUpdates (u : Updates) (t : Train) : Train :=
  mkTrain (id t)
          (default (trainNo t) (u_trainNo u))
          (default (from t) (u_from u))
          (default (to t) (u_to u))
          (default (arrive t) (u_arrive u))
          (default (depart t) (u_depart u))
          (default (delayMin t) (u_delayMin u))
          (default (status t) (u_status u))
          (default (platform t) (u_platform u))
          (assignedPlatform t).

(** [updateTrain]: nothing happens when [find] returns [undefined]. *)
Definition updateTrain (i : string) (updates : Updates) (st : State) : State :=
  match findTrain st i with
  | None => st
  | Some (r, tr) =>
      let tr' := assignUpdates updates tr in
      renderAll
        (announce ("Train " +:+ trainNo tr' +:+ " updated.")
           (set_store (<[r := tr']> (store st)) st))
  end.

(** [delayTrain]; [tr.delayMin || 0] is [tr.delayMin] unless that is 0. *)
Definition delayTrain (i : string) (minutes : Z) (st : State) : State :=
  match findTrain st i with
  | None => st
  | Some (r, tr) =>
      let tr' :=
        set_status DELAYED
          (set_delayMin ((if delayMin tr =? 0 then 0 else delayMin tr) + minutes) tr) in
      renderAll
        (announce ("Train " +:+ trainNo tr' +:+ " delayed by " +:+ pretty minutes
                   +:+ " minutes.")
           (set_store (<[r := tr']> (store st)) st))
  end.

Definition cancelTrain (i : string) (st : State) : State :=
  match findTrain st i with
  | None => st
  | Some (r, tr) =>
      let tr' := set_status CANCELLED tr in
      renderAll
        (announce ("Train " +:+ trainNo tr' +:+ " has been cancelled.")
           (set_store (<[r := tr']> (store st)) st))
  end.

Definition clearAll (st : State) : State :=
  renderAll (announce "All trains cleared."
               (set_announcements [] (set_trains [] st))).

(** [seed]: five fresh objects, allocated at the end of the store; the
    ids drawn by [createId] are arguments. *)
Definition seedTrains (i1 i2 i3 i4 i5 : string) : list Train :=
  let base := 480 in
  [ mkTrain i1 "12001" "Central" "Harbor" (base + 10) (base + 20) 0 ON_TIME (Some 1) None;
    mkTrain i2 "12002" "Uptown" "Lakeside" (base + 15) (base + 30) 0 ON_TIME None None;
    mkTrain i3 "12003" "Valley" "Central" (base + 25) (base + 40) 5 DELAYED (Some 2) None;
    mkTrain i4 "12004" "Harbor" "Uptown" (base + 35) (base + 50) 0 ON_TIME None None;
    mkTrain i5 "12005" "Lakeside" "Valley" (base + 55) (base + 70) 0 ON_TIME None None ].

Definition seed (i1 i2 i3 i4 i5 : string) (st : State) : State :=
  let n := length (store st) in
  renderAll (announce "Sample data seeded."
    (set_trains (seq n 5) (set_store (store st ++ seedTrains i1 i2 i3 i4 i5) st))).

(** The initial [state] (the clock reading of [lastTick] is an argument). *)
Definition initialState (now : Z) : State :=
  mkState [] [] [] 6 (mkSim (8 * 60) true 1 now) None None.

(** ** Auxiliary notions of the statements *)

(** A state whose train list holds pairwise distinct references that all
    resolve: what [state.trains] is in every state the actions reach. *)
Definition wellFormed (st : State) : Prop :=
  NoDup (trains st) ∧ ∀ r, r ∈ trains st → is_Some (store st !! r).

(** Two versions of an object that agree on everything but
    [assignedPlatform]. *)
Definition sameButAssigned (t t' : Train) : Prop :=
  id t' = id t ∧ trainNo t' = trainNo t ∧ from t' = from t ∧ to t' = to t
  ∧ arrive t' = arrive t ∧ depart t' = depart t ∧ delayMin t' = delayMin t
  ∧ status t' = status t ∧ platform t' = platform t.

(** An object whose assigned platform is a platform of the station. *)
Definition assignedInRange (n : nat) (t : Train) : Prop :=
  ∃ p, assignedPlatform t = Some p ∧ 1 ≤ p ≤ Z.of_nat n.

(** Zero-padded two-digit rendering, as the specification words it. *)
Definition digitChar (d : Z) : ascii := ascii_of_nat (48 + Z.to_nat d).

Definition twoDigits (k : Z) : string :=
  String (digitChar (k / 10)) (String (digitChar (k mod 10)) EmptyString).

(** A board holding the objects [ts], all listed, at clock [vm] with [n]
    platforms. *)
Definition boardWith (vm : Z) (n : nat) (ts : list Train) : State :=
  mkState ts (seq 0 (length ts)) [] n (mkSim vm true 1 0) None None.

(** The effective window and the status rule as the specification words
    them. *)
Definition specWindow (t : Train) : Z * Z :=
  if decide (status t = DELAYED)
  then (arrive t + delayMin t, depart t + delayMin t)
  else (arrive t, depart t).

Definition specStatus (vm a d delay : Z) : Status :=
  if decide (vm >= d + 5) then DEPARTED
  else if decide (d - 5 ≤ vm < d + 5) then BOARDING
  else if decide (a ≤ vm < d - 5) then ARRIVED
  else if decide (delay > 0) then DELAYED
  else ON_TIME.

(** The loop of [assignPlatforms] once the trains [done], a prefix of
    [sorted], have been processed. *)
Definition loopAfter (h : list Train) (sorted : list nat) (n : nat)
    (done : list nat) : list Train * list num :=
  foldl (assignOne sorted n) (h, replicate n NegInf) done.

(** ** Notions of the further properties *)

(** [intervalsOverlap] on the effective windows of two trains. *)
Definition windowsOverlap (o tr : Train) : bool :=
  intervalsOverlap (twdArrive (timeWithDelay o)) (twdDepart (timeWithDelay o))
                   (twdArrive (timeWithDelay tr)) (twdDepart (timeWithDelay tr)).

(** A free-at array of [n] cells, none of them [NaN]. *)
Definition soundEnds (n : nat) (platformEnd : list num) : Prop :=
  length platformEnd = n ∧ Forall (fun x => x ≠ NaN) platformEnd.

(** The train [o] sits on a platform whose free-at is not before its
    effective departure. *)
Definition coveredBy (platformEnd : list num) (o : Train) : Prop :=
  ∃ p : nat, assignedPlatform o = Some (Z.of_nat p + 1)
    ∧ num_le (Fin (twdDepart (timeWithDelay o))) (readEnd platformEnd p) = true.

(** Every train of [done] that resolves is covered by the free-at array of
    the loop state [s]. *)
Definition allCovered (done : list nat) (s : list Train * list num) : Prop :=
  ∀ r' o, r' ∈ done → fst s !! r' = Some o → coveredBy (snd s) o.

(** No two distinct trains of [rs] that share an assigned platform in the
    store [h] have overlapping effective windows. *)
Definition noDoubleBooking (rs : list nat) (h : list Train) : Prop :=
  ∀ r1 r2 o1 o2, r1 ∈ rs → r2 ∈ rs → r1 ≠ r2 →
    h !! r1 = Some o1 → h !! r2 = Some o2 →
    assignedPlatform o1 = assignedPlatform o2 → windowsOverlap o1 o2 = false.

(** The number of platforms already in use: cells other than [-Infinity]. *)
Definition usedEnds (platformEnd : list num) : nat :=
  length (filter (fun x => x ≠ NegInf) platformEnd).

(** Two versions of an object that agree on everything but [status] and
    [assignedPlatform]. *)
Definition sameData (t t' : Train) : Prop :=
  id t' = id t ∧ trainNo t' = trainNo t ∧ from t' = from t ∧ to t' = to t
  ∧ arrive t' = arrive t ∧ depart t' = depart t ∧ delayMin t' = delayMin t
  ∧ platform t' = platform t.

(** What an action on the id [i] leaves alone between the states [st] and
    [st']: the trains listed, the settings, and the data of every train
    whose id is not [i]. *)
Definition actionFrame (i : string) (st st' : State) : Prop :=
  trains st' ≡ₚ trains st
  ∧ numPlatforms st' = numPlatforms st
  ∧ sim st' = sim st
  ∧ ∀ r t, store st !! r = Some t → id t ≠ i →
      ∃ t', store st' !! r = Some t' ∧ sameData t t'.

(** ** What the grid of platforms shows *)

(** [(t.platform ?? t.assignedPlatform)]: the platform that [renderTable],
    [renderPlatforms] and the announcements of [tick] show for a train. *)
Definition shownPlatform (t : Train) : option Z :=
  match platform t with
  | Some q => Some q
  | None => assignedPlatform t
  end.

(** [onPlat] in [renderPlatforms], the trains on the card of platform [p]:
    [state.trains.filter((t) => (t.platform ?? t.assignedPlatform) === p)].
    The grid has one card for each [p] from 1 to [state.numPlatforms]. *)
Definition onPlat (st : State) (p : Z) : list nat :=
  filter (fun r => (store st !! r) ≫= shownPlatform = Some p) (trains st).

(** No two listed trains share an id. *)
Definition uniqueIds (st : State) : Prop :=
  ∀ r1 r2 t1 t2, r1 ∈ trains st → r2 ∈ trains st →
    store st !! r1 = Some t1 → store st !! r2 = Some t2 →
    id t1 = id t2 → r1 = r2.

(** * Properties *)

(** ** Time arithmetic on the examples of the specification *)

Example toMinutes_0800 : toMinutes (TStr "08:00") = Some 480.
Proof. reflexivity. Qed.

Example toHHMM_480 : toHHMM 480 = "08:00"%string.
Proof. vm_compute. reflexivity. Qed.


(** ** Sorting *)

Lemma insertBy_Permutation key x l : insertBy key x l ≡ₚ x :: l.
Proof.
  induction l as [|y l IH]; simpl; [done|].
  destruct (key x <=? key y); [done|].
  rewrite IH. apply Permutation_swap.
Qed.

Lemma sortBy_Permutation key l : sortBy key l ≡ₚ l.
Proof.
  induction l as [|x l IH]; simpl; [done|].
  unfold sortBy in *. simpl. rewrite insertBy_Permutation. by rewrite IH.
Qed.

Lemma elem_of_sortBy key l (r : nat) : r ∈ sortBy key l ↔ r ∈ l.
Proof. by rewrite sortBy_Permutation. Qed.

(** ** Bounds of the building blocks *)

Lemma clamp_bounds n lo hi : lo ≤ hi → lo ≤ clamp n lo hi ≤ hi.
Proof. unfold clamp. lia. Qed.

Lemma clamp_lower n lo hi : lo ≤ clamp n lo hi.
Proof. unfold clamp. lia. Qed.

Lemma firstFree_lt pe n a i : firstFree pe n a = Some i → (i < n)%nat.
Proof.
  unfold firstFree. intros H. apply find_some in H as [H _].
  apply in_seq in H. lia.
Qed.

(** ** The frame of the assignment pass *)

Lemma sameButAssigned_refl t : sameButAssigned t t.
Proof. by repeat split. Qed.

Lemma sameButAssigned_trans t1 t2 t3 :
  sameButAssigned t1 t2 → sameButAssigned t2 t3 → sameButAssigned t1 t3.
Proof.
  intros (?&?&?&?&?&?&?&?&?) (?&?&?&?&?&?&?&?&?).
  repeat split; congruence.
Qed.

Lemma sameButAssigned_set p t : sameButAssigned t (set_assignedPlatform p t).
Proof. by repeat split. Qed.

Lemma Forall2_sameButAssigned_refl (h : list Train) : Forall2 sameButAssigned h h.
Proof. induction h; constructor; auto using sameButAssigned_refl. Qed.

Create HintDb frame.
#[local] Hint Resolve sameButAssigned_refl sameButAssigned_set
  Forall2_sameButAssigned_refl : frame.

(** Unfold one iteration of the assignment loop and name its result. *)
Ltac loop_step E :=
  cbn [foldl];
  match goal with
  | |- context [assignOne ?s ?n (?h, ?pe) ?r] =>
      destruct (assignOne s n (h, pe) r) as [h1 pe1] eqn:E
  end.

Section AssignmentLoop.
Context (sorted : list nat) (n : nat).

Lemma assignOne_frame (h : list Train) pe r :
  Forall2 sameButAssigned h (fst (assignOne sorted n (h, pe) r)).
Proof.
  unfold assignOne. destruct (h !! r) as [tr|] eqn:Hr; simpl.
  - replace h with (<[r := tr]> h) at 1 by by apply list_insert_id.
    apply Forall2_insert; auto with frame.
  - auto with frame.
Qed.

Lemma assignFold_frame rs (h : list Train) pe :
  Forall2 sameButAssigned h (fst (foldl (assignOne sorted n) (h, pe) rs)).
Proof.
  revert h pe. induction rs as [|r rs IH]; intros h pe.
  - cbn [foldl]. auto with frame.
  - loop_step E.
    pose proof (assignOne_frame h pe r) as H1. rewrite E in H1.
    eapply Forall2_trans; [|exact H1|apply IH].
    intros ? ? ?. apply sameButAssigned_trans.
Qed.

(** *** The chosen platform is in range *)

Section Range.
Hypothesis Hn : (1 ≤ n)%nat.

Lemma manualChoice_lt h r tr p :
  manualChoice sorted n h r tr = Some p → (p < n)%nat.
Proof.
  unfold manualChoice.
  destruct (platform tr) as [q|]; [|done].
  destruct (existsb _ _); [done|]. intros [= <-].
  pose proof (clamp_bounds q 1 (Z.of_nat n)). lia.
Qed.

Lemma earliestFree_lt pe : (earliestFree pe n < n)%nat.
Proof.
  unfold earliestFree.
  assert (∀ l (s : nat * num),
    (fst s < n)%nat → Forall (λ i : nat, (i < n)%nat) l →
    (fst (foldl (λ '(best, bestEnd) i,
            if num_lt (readEnd pe i) bestEnd
            then (i, readEnd pe i) else (best, bestEnd)) s l) < n)%nat) as Hfold.
  { induction l as [|i l IH]; intros [b e] Hb Hl; simpl in *; [done|].
    inversion Hl; subst. apply IH; [|done].
    destruct (num_lt _ _); simpl; done. }
  apply Hfold; simpl; [lia|].
  apply Forall_forall. intros i Hi. apply elem_of_seq in Hi. lia.
Qed.

Lemma choosePlatform_lt h pe r tr :
  (choosePlatform sorted n h pe r tr < n)%nat.
Proof.
  unfold choosePlatform.
  destruct (manualChoice _ _ _ _ _) as [p|] eqn:Hm.
  - by eapply manualChoice_lt.
  - destruct (firstFree _ _ _) as [i|] eqn:Hf.
    + by eapply firstFree_lt.
    + by apply earliestFree_lt.
Qed.

Lemma assignOne_at (h : list Train) pe r tr :
  h !! r = Some tr →
  ∃ t', fst (assignOne sorted n (h, pe) r) !! r = Some t' ∧ assignedInRange n t'.
Proof.
  intros Hr. unfold assignOne. rewrite Hr. simpl.
  eexists. split.
  - apply list_lookup_insert_eq. by eapply lookup_lt_Some.
  - eexists. split; [done|].
    pose proof (choosePlatform_lt h pe r tr). lia.
Qed.

Lemma assignOne_keeps (h : list Train) pe r r' :
  (∃ t, h !! r = Some t ∧ assignedInRange n t) →
  ∃ t', fst (assignOne sorted n (h, pe) r') !! r = Some t' ∧ assignedInRange n t'.
Proof.
  intros (t & Hr & Ht).
  destruct (decide (r' = r)) as [->|Hne].
  - by eapply assignOne_at.
  - unfold assignOne. destruct (h !! r') as [tr'|]; simpl.
    + rewrite list_lookup_insert_ne by done. eauto.
    + eauto.
Qed.

Lemma assignFold_keeps rs (h : list Train) pe r :
  (∃ t, h !! r = Some t ∧ assignedInRange n t) →
  ∃ t', fst (foldl (assignOne sorted n) (h, pe) rs) !! r = Some t'
        ∧ assignedInRange n t'.
Proof.
  revert h pe. induction rs as [|r' rs IH]; intros h pe H.
  - done.
  - loop_step E.
    apply IH. pose proof (assignOne_keeps h pe r r' H) as H1.
    by rewrite E in H1.
Qed.

Lemma assignFold_range rs (h : list Train) pe r :
  r ∈ rs → is_Some (h !! r) →
  ∃ t', fst (foldl (assignOne sorted n) (h, pe) rs) !! r = Some t'
        ∧ assignedInRange n t'.
Proof.
  revert h pe. induction rs as [|r' rs IH]; intros h pe Hin Hr.
  - by apply elem_of_nil in Hin.
  - loop_step E.
    destruct (decide (r = r')) as [->|Hne].
    + apply assignFold_keeps. destruct Hr as [tr Hr].
      pose proof (assignOne_at h pe r' tr Hr) as H1.
      by rewrite E in H1.
    + apply elem_of_cons in Hin as [?|Hin]; [done|].
      apply IH; [done|].
      pose proof (assignOne_frame h pe r') as Hf. rewrite E in Hf.
      simpl in Hf. destruct Hr as [tr Hr].
      destruct (Forall2_lookup_l _ _ _ _ _ Hf Hr) as (t' & Ht' & _). eauto.
Qed.

End Range.
End AssignmentLoop.

Lemma assignPlatforms_frame (h : list Train) trains n :
  Forall2 sameButAssigned h (fst (assignPlatforms h trains n)).
Proof. apply assignFold_frame. Qed.

(** ** The status pass *)

Lemma updateStatus_ne vm (h : list Train) r r' :
  r ≠ r' → updateStatus vm h r' !! r = h !! r.
Proof.
  intros Hne. unfold updateStatus. destruct (h !! r') as [tr|]; [|done].
  destruct (decide _); [done|]. by rewrite list_lookup_insert_ne.
Qed.

Lemma updateStatus_cancelled vm (h : list Train) r r' t :
  h !! r = Some t → status t = CANCELLED → updateStatus vm h r' !! r = Some t.
Proof.
  intros Hr Hc. destruct (decide (r = r')) as [<-|Hne].
  - unfold updateStatus. rewrite Hr. by rewrite decide_True.
  - by rewrite updateStatus_ne.
Qed.

Lemma updateStatus_live vm (h : list Train) r t :
  h !! r = Some t → status t ≠ CANCELLED →
  updateStatus vm h r !! r = Some (set_status (deriveStatus vm t) t).
Proof.
  intros Hr Hc. unfold updateStatus. rewrite Hr, decide_False by done.
  apply list_lookup_insert_eq. by eapply lookup_lt_Some.
Qed.

Lemma statusPass_notin vm trains (h : list Train) r :
  r ∉ trains → statusPass vm h trains !! r = h !! r.
Proof.
  unfold statusPass. revert h.
  induction trains as [|r' rs IH]; intros h Hnot; cbn [foldl]; [done|].
  apply not_elem_of_cons in Hnot as [Hne Hnot].
  rewrite IH by done. by apply updateStatus_ne.
Qed.

Lemma statusPass_cancelled vm trains (h : list Train) r t :
  h !! r = Some t → status t = CANCELLED → statusPass vm h trains !! r = Some t.
Proof.
  unfold statusPass. revert h.
  induction trains as [|r' rs IH]; intros h Hr Hc; cbn [foldl]; [done|].
  apply IH; [|done]. by apply updateStatus_cancelled.
Qed.

Lemma statusPass_live vm trains (h : list Train) r t :
  NoDup trains → r ∈ trains → h !! r = Some t → status t ≠ CANCELLED →
  statusPass vm h trains !! r = Some (set_status (deriveStatus vm t) t).
Proof.
  unfold statusPass. revert h.
  induction trains as [|r' rs IH]; intros h Hnd Hin Hr Hc; cbn [foldl].
  - by apply elem_of_nil in Hin.
  - apply NoDup_cons in Hnd as [Hnot Hnd].
    destruct (decide (r = r')) as [->|Hne].
    + fold (statusPass vm (updateStatus vm h r') rs).
      rewrite statusPass_notin by done. by apply updateStatus_live.
    + apply elem_of_cons in Hin as [?|Hin]; [done|].
      apply IH; try done. by rewrite updateStatus_ne.
Qed.

Lemma store_computeDerived st :
  store (computeDerived st) =
  fst (assignPlatforms
         (statusPass (virtualMinutes (sim st)) (store st) (trains st))
         (trains st) (numPlatforms st)).
Proof. reflexivity. Qed.

(** The status of an object after recomputation is the one the status
    pass gave it. *)
Lemma computeDerived_status st r t1 :
  statusPass (virtualMinutes (sim st)) (store st) (trains st) !! r = Some t1 →
  ∃ t', store (computeDerived st) !! r = Some t' ∧ status t' = status t1.
Proof.
  intros H1. rewrite store_computeDerived.
  destruct (Forall2_lookup_l _ _ _ _ _
              (assignPlatforms_frame _ (trains st) (numPlatforms st)) H1)
    as (t' & Ht' & Hsame).
  exists t'. split; [done|]. apply Hsame.
Qed.

Lemma deriveStatus_window vm t :
  deriveStatus vm t =
  let a := twdArrive (timeWithDelay t) in
  let d := twdDepart (timeWithDelay t) in
  if decide (d + 5 ≤ vm) then DEPARTED
  else if decide (d - 5 ≤ vm) then BOARDING
  else if decide (a ≤ vm) then ARRIVED
  else if decide (0 < delayMin t) then DELAYED
  else ON_TIME.
Proof.
  unfold deriveStatus. cbv zeta.
  generalize (twdArrive (timeWithDelay t)) (twdDepart (timeWithDelay t)).
  intros a d.
  repeat match goal with
  | |- context [?x >=? ?y] => destruct (Z.geb_spec x y)
  | |- context [?x <? ?y] => destruct (Z.ltb_spec x y)
  | |- context [?x >? ?y] => destruct (Z.gtb_spec x y)
  end; simpl; repeat case_decide; try done; lia.
Qed.

Lemma deriveStatus_spec vm t :
  deriveStatus vm t
  = specStatus vm (fst (specWindow t)) (snd (specWindow t)) (delayMin t).
Proof.
  rewrite deriveStatus_window. unfold specStatus, specWindow, timeWithDelay.
  cbv zeta. cbn [twdArrive twdDepart].
  destruct (decide (status t = DELAYED)); cbn [fst snd];
    repeat case_decide; try done; lia.
Qed.

(** ** The free-at array *)

Lemma readEnd_writeEnd_eq pe i v : readEnd (writeEnd pe i v) i = v.
Proof.
  unfold readEnd, writeEnd. destruct (Nat.ltb_spec i (length pe)).
  - by rewrite list_lookup_insert_eq.
  - rewrite lookup_app_r by lia. rewrite lookup_app_r; rewrite length_replicate; [|lia].
    by replace (i - length pe - (i - length pe))%nat with 0%nat by lia.
Qed.

Lemma readEnd_writeEnd_ne pe i j v :
  i ≠ j → readEnd (writeEnd pe i v) j = readEnd pe j.
Proof.
  intros Hne. unfold readEnd, writeEnd. destruct (Nat.ltb_spec i (length pe)).
  - by rewrite list_lookup_insert_ne.
  - destruct (Nat.lt_ge_cases j (length pe)) as [Hj|Hj].
    + by rewrite lookup_app_l.
    + rewrite (lookup_ge_None_2 pe j) by done. rewrite lookup_app_r by done.
      destruct (Nat.lt_ge_cases (j - length pe) (i - length pe)) as [Hk|Hk].
      * rewrite lookup_app_l by by rewrite length_replicate.
        by rewrite lookup_replicate_2.
      * rewrite lookup_app_r by by rewrite length_replicate.
        rewrite length_replicate.
        destruct (j - length pe - (i - length pe))%nat as [|k] eqn:Ek; [lia|done].
Qed.

(** ** Honoured manual requests *)

Lemma manualChoice_honoured sorted n h r tr q :
  platform tr = Some q →
  existsb (conflictsWith h r tr) sorted = false →
  manualChoice sorted n h r tr = Some (Z.to_nat (clamp q 1 (Z.of_nat n) - 1)).
Proof. intros Hq Hex. unfold manualChoice. by rewrite Hq, Hex. Qed.

Lemma assignOne_honoured sorted n (h : list Train) pe r tr q :
  h !! r = Some tr → platform tr = Some q →
  existsb (conflictsWith h r tr) sorted = false →
  assignOne sorted n (h, pe) r =
  (<[r := set_assignedPlatform (Some (clamp q 1 (Z.of_nat n))) tr]> h,
   writeEnd pe (Z.to_nat (clamp q 1 (Z.of_nat n) - 1))
     (mathMax (readEnd pe (Z.to_nat (clamp q 1 (Z.of_nat n) - 1)))
              (Fin (twdDepart (timeWithDelay tr))))).
Proof.
  intros Hr Hq Hex. unfold assignOne, choosePlatform.
  rewrite Hr, (manualChoice_honoured _ _ _ _ _ q) by done.
  pose proof (clamp_lower q 1 (Z.of_nat n)).
  replace (Z.of_nat (Z.to_nat (clamp q 1 (Z.of_nat n) - 1)) + 1)
    with (clamp q 1 (Z.of_nat n)) by lia.
  done.
Qed.

Lemma intervalsOverlap_sym a b c d :
  intervalsOverlap a b c d = intervalsOverlap c d a b.
Proof. unfold intervalsOverlap. apply andb_comm. Qed.

Lemma conflictsWith_self h r tr : conflictsWith h r tr r = false.
Proof.
  unfold conflictsWith. destruct (h !! r); [|done].
  by rewrite Nat.eqb_refl.
Qed.

Lemma conflictsWith_apart (h : list Train) r tr r' o :
  h !! r' = Some o →
  intervalsOverlap (twdArrive (timeWithDelay o)) (twdDepart (timeWithDelay o))
                   (twdArrive (timeWithDelay tr)) (twdDepart (timeWithDelay tr)) = false →
  conflictsWith h r tr r' = false.
Proof.
  intros Ho Hov. unfold conflictsWith. rewrite Ho, Hov. apply andb_false_r.
Qed.

(** Two distinct trains with disjoint windows that ask for the same
    platform, processed in the order [ra], [rb]. *)
Lemma assign_pair_honoured n (h : list Train) pe ra rb ta tb q :
  ra ≠ rb → h !! ra = Some ta → h !! rb = Some tb →
  platform ta = Some q → platform tb = Some q →
  intervalsOverlap (twdArrive (timeWithDelay ta)) (twdDepart (timeWithDelay ta))
                   (twdArrive (timeWithDelay tb)) (twdDepart (timeWithDelay tb)) = false →
  let h' := fst (foldl (assignOne [ra; rb] n) (h, pe) [ra; rb]) in
  assignedPlatform <$> h' !! ra = Some (Some (clamp q 1 (Z.of_nat n)))
  ∧ assignedPlatform <$> h' !! rb = Some (Some (clamp q 1 (Z.of_nat n))).
Proof.
  intros Hne Ha Hb Hqa Hqb Hov. cbn [foldl].
  rewrite (assignOne_honoured _ _ _ _ _ ta q); try done.
  2:{ cbn [existsb]. rewrite conflictsWith_self.
      rewrite (conflictsWith_apart _ _ _ _ tb); try done.
      by rewrite intervalsOverlap_sym. }
  set (ta' := set_assignedPlatform _ ta).
  rewrite (assignOne_honoured _ _ _ _ _ tb q); try done.
  2:{ by rewrite list_lookup_insert_ne. }
  2:{ cbn [existsb]. rewrite conflictsWith_self.
      rewrite (conflictsWith_apart _ _ _ _ ta'); try done.
      apply list_lookup_insert_eq. by eapply lookup_lt_Some. }
  cbn [fst]. split.
  - rewrite list_lookup_insert_ne by done.
    rewrite list_lookup_insert_eq by by eapply lookup_lt_Some. done.
  - rewrite list_lookup_insert_eq; [done|].
    rewrite length_insert. by eapply lookup_lt_Some.
Qed.

(** ** Lookup by id *)

Lemma findById_None (h : list Train) i trains :
  (∀ r t, r ∈ trains → h !! r = Some t → id t ≠ i) →
  findById h i trains = None.
Proof.
  induction trains as [|r rs IH]; intros Hno; cbn [findById]; [done|].
  destruct (h !! r) as [t|] eqn:Hr.
  - destruct (String.eqb_spec (id t) i) as [Heq|_].
    + exfalso. eapply Hno; [left|exact Hr|exact Heq].
    + apply IH. intros r' t' Hin. apply Hno. by right.
  - apply IH. intros r' t' Hin. apply Hno. by right.
Qed.

(** ** The train list of every reachable state *)

Lemma length_updateStatus vm (h : list Train) r :
  length (updateStatus vm h r) = length h.
Proof.
  unfold updateStatus. destruct (h !! r); [|done].
  destruct (decide _); [done|]. apply length_insert.
Qed.

Lemma length_statusPass vm trains (h : list Train) :
  length (statusPass vm h trains) = length h.
Proof.
  unfold statusPass. revert h.
  induction trains as [|r rs IH]; intros h; cbn [foldl]; [done|].
  by rewrite IH, length_updateStatus.
Qed.

Lemma length_assignPlatforms (h : list Train) trains n :
  length (fst (assignPlatforms h trains n)) = length h.
Proof. symmetry. eapply Forall2_length, assignPlatforms_frame. Qed.

Lemma length_store_computeDerived st :
  length (store (computeDerived st)) = length (store st).
Proof.
  by rewrite store_computeDerived, length_assignPlatforms, length_statusPass.
Qed.

Lemma wellFormed_initialState now : wellFormed (initialState now).
Proof. split; [constructor|]. intros r Hr. by apply elem_of_nil in Hr. Qed.

Lemma wellFormed_computeDerived st :
  wellFormed st → wellFormed (computeDerived st).
Proof.
  intros [Hnd Hres]. split.
  - cbn [computeDerived trains set_trains]. by rewrite sortBy_Permutation.
  - intros r Hr. cbn [computeDerived trains set_trains] in Hr.
    apply elem_of_sortBy in Hr.
    apply lookup_lt_is_Some. rewrite length_store_computeDerived.
    by apply lookup_lt_is_Some, Hres.
Qed.

Lemma wellFormed_announce message st :
  wellFormed st → wellFormed (announce message st).
Proof. done. Qed.

Lemma wellFormed_set_object st r tr :
  wellFormed st → wellFormed (set_store (<[r := tr]> (store st)) st).
Proof.
  intros [Hnd Hres]. split; [done|]. intros r' Hr'.
  cbn [store set_store]. apply lookup_lt_is_Some. rewrite length_insert.
  by apply lookup_lt_is_Some, Hres.
Qed.

Lemma wellFormed_updateTrain i updates st :
  wellFormed st → wellFormed (updateTrain i updates st).
Proof.
  intros Hwf. unfold updateTrain. destruct (findTrain st i) as [[r tr]|]; [|done].
  by apply wellFormed_computeDerived, wellFormed_announce, wellFormed_set_object.
Qed.

Lemma wellFormed_delayTrain i minutes st :
  wellFormed st → wellFormed (delayTrain i minutes st).
Proof.
  intros Hwf. unfold delayTrain. destruct (findTrain st i) as [[r tr]|]; [|done].
  by apply wellFormed_computeDerived, wellFormed_announce, wellFormed_set_object.
Qed.

Lemma wellFormed_cancelTrain i st :
  wellFormed st → wellFormed (cancelTrain i st).
Proof.
  intros Hwf. unfold cancelTrain. destruct (findTrain st i) as [[r tr]|]; [|done].
  by apply wellFormed_computeDerived, wellFormed_announce, wellFormed_set_object.
Qed.

Lemma wellFormed_clearAll st : wellFormed (clearAll st).
Proof.
  apply wellFormed_computeDerived, wellFormed_announce.
  split; [constructor|]. intros r Hr. by apply elem_of_nil in Hr.
Qed.

Lemma wellFormed_seed i1 i2 i3 i4 i5 st : wellFormed (seed i1 i2 i3 i4 i5 st).
Proof.
  apply wellFormed_computeDerived, wellFormed_announce. split.
  - apply NoDup_seq.
  - intros r Hr. cbn [trains set_trains store set_store] in *.
    apply elem_of_seq in Hr. apply lookup_lt_is_Some.
    rewrite length_app. cbn [seedTrains length]. lia.
Qed.

(** ** The loop on concrete boards *)

(** The seeded board: 12001 is honoured on platform 1 until 500, so 12002,
    arriving at 495 without a request, is put on platform 2. *)
Example seeded_assignment :
  assignedPlatform <$> fst (assignPlatforms (seedTrains "a" "b" "c" "d" "e")
                              [0; 1; 2; 3; 4]%nat 6)
  = [Some 1; Some 2; Some 2; Some 1; Some 1].
Proof. reflexivity. Qed.

(** The manual path does not look at the free-at array: a train asking for
    platform 1 is put there although the train placed before it holds
    platform 1 over the whole of its window. *)
Example honoured_on_a_busy_platform :
  assignedPlatform <$> fst (assignPlatforms
    [mkTrain "x" "12001" "Central" "Harbor" 490 520 0 ON_TIME None None;
     mkTrain "y" "12002" "Uptown" "Lakeside" 500 510 0 ON_TIME (Some 1) None]
    [0; 1]%nat 6)
  = [Some 1; Some 1].
Proof. reflexivity. Qed.

(** Five trains on a single platform are all placed on it. *)
Example more_trains_than_platforms :
  assignedPlatform <$> fst (assignPlatforms (seedTrains "a" "b" "c" "d" "e")
                              [0; 1; 2; 3; 4]%nat 1)
  = [Some 1; Some 1; Some 1; Some 1; Some 1].
Proof. reflexivity. Qed.

(** Why the train list must not hold an object twice: the second visit of
    the status loop sees the status the first one wrote, and with it the
    window without the delay. A DELAYED train (480 to 500, delay 5) at
    clock 497 is ARRIVED after one visit and BOARDING after two. *)
Example status_of_an_object_listed_twice :
  let t := mkTrain "x" "12001" "Central" "Harbor" 480 500 5 DELAYED None None in
  status <$> statusPass 497 [t] [0]%nat = [ARRIVED]
  ∧ status <$> statusPass 497 [t] [0; 0]%nat = [BOARDING].
Proof. split; reflexivity. Qed.

(** ** Time formatting *)

Lemma double_rem_mod n :
  Z.rem (Z.rem n (24 * 60) + 24 * 60) (24 * 60) = n mod 1440.
Proof.
  change (24 * 60) with 1440.
  Z.to_euclidean_division_equations. lia.
Qed.

Lemma toHHMM_format_check :
  forallb (fun m => String.eqb (pad2 (m / 60) +:+ ":" +:+ pad2 (Z.rem m 60))
                               (twoDigits (m / 60) +:+ ":" +:+ twoDigits (m mod 60)))
          (seqZ 0 1440) = true.
Proof. vm_compute. reflexivity. Qed.

Lemma toHHMM_format m :
  0 ≤ m < 1440 →
  pad2 (m / 60) +:+ ":" +:+ pad2 (Z.rem m 60)
  = twoDigits (m / 60) +:+ ":" +:+ twoDigits (m mod 60).
Proof.
  intros Hm. pose proof toHHMM_format_check as Hall.
  rewrite forallb_forall in Hall.
  apply String.eqb_eq, Hall, list_elem_of_In, elem_of_seqZ. lia.
Qed.

(** * The claims *)

(** Claim C1 as stated fails: the free-at of the honoured platform is
    written. One train asking for platform 1, window 490 to 500, one
    platform: its free-at goes from [-Infinity] to 500. *)
Lemma manual_honour_writes_free_at :
  ¬ (∀ (h : list Train) trains n pre r post tr q,
       sortBy (arriveKey h) trains = pre ++ r :: post →
       let sorted := sortBy (arriveKey h) trains in
       let s := loopAfter h sorted n pre in
       fst s !! r = Some tr → platform tr = Some q →
       existsb (conflictsWith (fst s) r tr) sorted = false →
       ∀ i, readEnd (snd (assignOne sorted n s r)) i = readEnd (snd s) i).
Proof.
  intros H.
  pose proof (H [mkTrain "a" "12001" "Central" "Harbor" 490 500 0 ON_TIME (Some 1) None]
                [0%nat] 1%nat [] 0%nat []
                (mkTrain "a" "12001" "Central" "Harbor" 490 500 0 ON_TIME (Some 1) None)
                1 eq_refl eq_refl eq_refl eq_refl 0%nat) as H0.
  vm_compute in H0. discriminate.
Qed.

(** Claim C1 (amended): when the manual request [q] of a train is honoured,
    the train is assigned platform [clamp q 1 n] whatever the free-at array
    holds, the free-at of that platform becomes the maximum of its value
    and the train's effective departure, and the free-at of every other
    platform is what it was before the train was processed. *)
Theorem manual_honour_free_at (h : list Train) trains n pre r post tr q :
  sortBy (arriveKey h) trains = pre ++ r :: post →
  let sorted := sortBy (arriveKey h) trains in
  let s := loopAfter h sorted n pre in
  let s' := assignOne sorted n s r in
  let p := Z.to_nat (clamp q 1 (Z.of_nat n) - 1) in
  fst s !! r = Some tr → platform tr = Some q →
  existsb (conflictsWith (fst s) r tr) sorted = false →
  fst s' !! r = Some (set_assignedPlatform (Some (clamp q 1 (Z.of_nat n))) tr)
  ∧ readEnd (snd s') p
    = mathMax (readEnd (snd s) p) (Fin (twdDepart (timeWithDelay tr)))
  ∧ ∀ i, i ≠ p → readEnd (snd s') i = readEnd (snd s) i.
Proof.
  intros _. cbv zeta.
  destruct (loopAfter h (sortBy (arriveKey h) trains) n pre) as [h0 pe] eqn:E.
  cbn [fst snd]. intros Hr Hq Hex.
  rewrite (assignOne_honoured _ _ _ _ _ tr q) by done. cbn [fst snd].
  split; [|split].
  - apply list_lookup_insert_eq. by eapply lookup_lt_Some.
  - apply readEnd_writeEnd_eq.
  - intros i Hi. by apply readEnd_writeEnd_ne.
Qed.

(** The seeded board: train 12003 asks for platform 2 after 12001 and
    12002 are placed; platform 2 was free at 510 and is free at 525 after. *)
Lemma manual_honour_free_at_witness :
  let h := seedTrains "a" "b" "c" "d" "e" in
  let s := loopAfter h [0; 1; 2; 3; 4]%nat 6 [0; 1]%nat in
  let s' := assignOne [0; 1; 2; 3; 4]%nat 6 s 2 in
  fst s' !! 2%nat
  = Some (mkTrain "c" "12003" "Valley" "Central" 505 520 5 DELAYED (Some 2) (Some 2))
  ∧ readEnd (snd s') 1 = Fin 525
  ∧ ∀ i, i ≠ 1%nat → readEnd (snd s') i = readEnd (snd s) i.
Proof.
  apply (manual_honour_free_at (seedTrains "a" "b" "c" "d" "e")
           [0; 1; 2; 3; 4]%nat 6 [0; 1]%nat 2 [3; 4]%nat
           (mkTrain "c" "12003" "Valley" "Central" 505 520 5 DELAYED (Some 2) None) 2);
    reflexivity.
Defined.

(** Claim C2: a train of the list that is not cancelled leaves
    recomputation with the first matching status of DEPARTED, BOARDING,
    ARRIVED, DELAYED, ON_TIME, on the window its status on entry gives. The
    objects of [state.trains] are pairwise distinct. *)
Theorem status_by_priority st r t :
  NoDup (trains st) → r ∈ trains st → store st !! r = Some t →
  status t ≠ CANCELLED →
  ∃ t', store (computeDerived st) !! r = Some t'
        ∧ status t' = specStatus (virtualMinutes (sim st))
                        (fst (specWindow t)) (snd (specWindow t)) (delayMin t).
Proof.
  intros Hnd Hin Hr Hc.
  pose proof (statusPass_live (virtualMinutes (sim st)) _ _ _ _ Hnd Hin Hr Hc) as H1.
  destruct (computeDerived_status _ _ _ H1) as (t' & Ht' & Hs).
  exists t'. split; [done|]. rewrite Hs. cbn [status set_status].
  apply deriveStatus_spec.
Qed.

Lemma status_by_priority_witness :
  let st := boardWith 497 6 (seedTrains "a" "b" "c" "d" "e") in
  ∃ t', store (computeDerived st) !! 1%nat = Some t' ∧ status t' = ARRIVED.
Proof.
  apply (status_by_priority
           (boardWith 497 6 (seedTrains "a" "b" "c" "d" "e")) 1
           (mkTrain "b" "12002" "Uptown" "Lakeside" 495 510 0 ON_TIME None None)).
  - compute_done.
  - compute_done.
  - reflexivity.
  - discriminate.
Defined.

(** Claim C3: an object whose status is CANCELLED keeps it through
    recomputation, whatever the clock, its delay and its times. *)
Theorem cancelled_is_absorbing st r t :
  store st !! r = Some t → status t = CANCELLED →
  ∃ t', store (computeDerived st) !! r = Some t' ∧ status t' = CANCELLED.
Proof.
  intros Hr Hc.
  pose proof (statusPass_cancelled (virtualMinutes (sim st)) (trains st) _ _ _ Hr Hc) as H1.
  destruct (computeDerived_status _ _ _ H1) as (t' & Ht' & Hs).
  exists t'. split; [done|]. congruence.
Qed.

Lemma cancelled_is_absorbing_witness :
  let st := boardWith 600 6
              [mkTrain "x" "12001" "Central" "Harbor" 490 500 3 CANCELLED (Some 1) None] in
  ∃ t', store (computeDerived st) !! 0%nat = Some t' ∧ status t' = CANCELLED.
Proof.
  apply (cancelled_is_absorbing
           (boardWith 600 6
              [mkTrain "x" "12001" "Central" "Harbor" 490 500 3 CANCELLED (Some 1) None])
           0 (mkTrain "x" "12001" "Central" "Harbor" 490 500 3 CANCELLED (Some 1) None));
    reflexivity.
Defined.

(** Claim C4: with at least one platform, every listed train leaves the
    assignment pass with an assigned platform between 1 and the platform
    count, however many trains there are. *)
Theorem assignment_total_in_range (h : list Train) trains n r t :
  (1 ≤ n)%nat → r ∈ trains → h !! r = Some t →
  ∃ t' p, fst (assignPlatforms h trains n) !! r = Some t'
          ∧ assignedPlatform t' = Some p ∧ 1 ≤ p ≤ Z.of_nat n.
Proof.
  intros Hn Hin Hr. unfold assignPlatforms, assignLoop. cbn [fst].
  destruct (assignFold_range (sortBy (arriveKey h) trains) n Hn
              (sortBy (arriveKey h) trains) h (replicate n NegInf) r)
    as (t' & Ht' & p & Hp & Hrange); try done.
  - by apply elem_of_sortBy.
  - exists t', p. done.
Qed.

(** Five trains on one platform: the fourth still gets platform 1. *)
Lemma assignment_total_in_range_witness :
  ∃ t' p, fst (assignPlatforms (seedTrains "a" "b" "c" "d" "e")
                 [0; 1; 2; 3; 4]%nat 1) !! 3%nat = Some t'
          ∧ assignedPlatform t' = Some p ∧ 1 ≤ p ≤ 1.
Proof.
  apply (assignment_total_in_range (seedTrains "a" "b" "c" "d" "e")
           [0; 1; 2; 3; 4]%nat 1 3
           (mkTrain "d" "12004" "Harbor" "Uptown" 515 530 0 ON_TIME None None)).
  - lia.
  - compute_done.
  - reflexivity.
Defined.

(** Claim C5 as stated fails: an ON_TIME train with arrive 480 and depart
    500 is BOARDING at clock 500, since DEPARTED starts at depart + 5. *)
Lemma boundary_claim_fails_at_500 :
  ¬ (∀ st r t,
       NoDup (trains st) → r ∈ trains st → store st !! r = Some t →
       arrive t = 480 → depart t = 500 → delayMin t = 0 → status t ≠ DELAYED →
       ∃ t', store (computeDerived st) !! r = Some t'
         ∧ (virtualMinutes (sim st) = 495 → status t' = BOARDING)
         ∧ (virtualMinutes (sim st) = 500 → status t' = DEPARTED)
         ∧ (virtualMinutes (sim st) = 494 → status t' = ARRIVED)
         ∧ (virtualMinutes (sim st) = 479 → status t' = ON_TIME)).
Proof.
  intros H.
  destruct (H (boardWith 500 6
                 [mkTrain "x" "12001" "Central" "Harbor" 480 500 0 ON_TIME None None])
              0%nat
              (mkTrain "x" "12001" "Central" "Harbor" 480 500 0 ON_TIME None None))
    as (t' & Ht' & _ & H500 & _); try done; try compute_done.
  vm_compute in Ht'. injection Ht' as <-.
  specialize (H500 eq_refl). discriminate.
Qed.

(** A cancelled train is not DELAYED either, and stays CANCELLED at the
    boarding time. *)
Example cancelled_at_boarding_time :
  status <$> store (computeDerived (boardWith 495 6
      [mkTrain "x" "12001" "Central" "Harbor" 480 500 0 CANCELLED None None])) !! 0%nat
  = Some CANCELLED.
Proof. reflexivity. Qed.

(** Claim C5 (amended): for a train with arrive 480, depart 500, no delay
    and a status on entry that is neither DELAYED nor CANCELLED,
    recomputation gives BOARDING at 495 and still at 500, DEPARTED at 505,
    ARRIVED at 494 and ON_TIME at 479. *)
Theorem boundary_exactness st r t :
  NoDup (trains st) → r ∈ trains st → store st !! r = Some t →
  arrive t = 480 → depart t = 500 → delayMin t = 0 →
  status t ≠ DELAYED → status t ≠ CANCELLED →
  ∃ t', store (computeDerived st) !! r = Some t'
    ∧ (virtualMinutes (sim st) = 495 → status t' = BOARDING)
    ∧ (virtualMinutes (sim st) = 500 → status t' = BOARDING)
    ∧ (virtualMinutes (sim st) = 505 → status t' = DEPARTED)
    ∧ (virtualMinutes (sim st) = 494 → status t' = ARRIVED)
    ∧ (virtualMinutes (sim st) = 479 → status t' = ON_TIME).
Proof.
  intros Hnd Hin Hr Ha Hd Hm Hnd' Hc.
  pose proof (statusPass_live (virtualMinutes (sim st)) _ _ _ _ Hnd Hin Hr Hc) as H1.
  destruct (computeDerived_status _ _ _ H1) as (t' & Ht' & Hs).
  exists t'. split; [done|]. rewrite Hs. cbn [status set_status].
  unfold deriveStatus, timeWithDelay. cbn [twdArrive twdDepart].
  rewrite decide_False, Ha, Hd, Hm by done.
  repeat split; intros ->; reflexivity.
Qed.

Lemma boundary_exactness_witness :
  let st := boardWith 500 6
              [mkTrain "x" "12001" "Central" "Harbor" 480 500 0 ON_TIME None None] in
  ∃ t', store (computeDerived st) !! 0%nat = Some t'
    ∧ (virtualMinutes (sim st) = 495 → status t' = BOARDING)
    ∧ (virtualMinutes (sim st) = 500 → status t' = BOARDING)
    ∧ (virtualMinutes (sim st) = 505 → status t' = DEPARTED)
    ∧ (virtualMinutes (sim st) = 494 → status t' = ARRIVED)
    ∧ (virtualMinutes (sim st) = 479 → status t' = ON_TIME).
Proof.
  apply (boundary_exactness
           (boardWith 500 6
              [mkTrain "x" "12001" "Central" "Harbor" 480 500 0 ON_TIME None None])
           0 (mkTrain "x" "12001" "Central" "Harbor" 480 500 0 ON_TIME None None));
    try reflexivity; try discriminate; compute_done.
Defined.

(** Claim C6: two distinct trains that both ask for platform 2 and whose
    effective windows do not overlap are both assigned platform 2 when the
    station has at least two platforms. *)
Theorem disjoint_manual_requests_honoured (h : list Train) r1 r2 t1 t2 n :
  r1 ≠ r2 → h !! r1 = Some t1 → h !! r2 = Some t2 →
  platform t1 = Some 2 → platform t2 = Some 2 →
  intervalsOverlap (twdArrive (timeWithDelay t1)) (twdDepart (timeWithDelay t1))
                   (twdArrive (timeWithDelay t2)) (twdDepart (timeWithDelay t2)) = false →
  (2 ≤ n)%nat →
  let h' := fst (assignPlatforms h [r1; r2] n) in
  assignedPlatform <$> h' !! r1 = Some (Some 2)
  ∧ assignedPlatform <$> h' !! r2 = Some (Some 2).
Proof.
  intros Hne H1 H2 Hq1 Hq2 Hov Hn. cbv zeta.
  unfold assignPlatforms, assignLoop. cbn [fst].
  assert (clamp 2 1 (Z.of_nat n) = 2) as Hc by (unfold clamp; lia).
  unfold sortBy. cbn [foldr insertBy].
  destruct (arriveKey h r1 <=? arriveKey h r2).
  - destruct (assign_pair_honoured n h (replicate n NegInf) r1 r2 t1 t2 2)
      as [Ha Hb]; try done.
    by rewrite Hc in Ha, Hb.
  - destruct (assign_pair_honoured n h (replicate n NegInf) r2 r1 t2 t1 2)
      as [Ha Hb]; try done.
    + by rewrite intervalsOverlap_sym.
    + by rewrite Hc in Ha, Hb.
Qed.

Lemma disjoint_manual_requests_honoured_witness :
  let h := [mkTrain "x" "12001" "Central" "Harbor" 490 500 0 ON_TIME (Some 2) None;
            mkTrain "y" "12002" "Uptown" "Lakeside" 500 510 0 ON_TIME (Some 2) None] in
  let h' := fst (assignPlatforms h [0; 1]%nat 3) in
  assignedPlatform <$> h' !! 0%nat = Some (Some 2)
  ∧ assignedPlatform <$> h' !! 1%nat = Some (Some 2).
Proof.
  apply (disjoint_manual_requests_honoured
           [mkTrain "x" "12001" "Central" "Harbor" 490 500 0 ON_TIME (Some 2) None;
            mkTrain "y" "12002" "Uptown" "Lakeside" 500 510 0 ON_TIME (Some 2) None]
           0 1
           (mkTrain "x" "12001" "Central" "Harbor" 490 500 0 ON_TIME (Some 2) None)
           (mkTrain "y" "12002" "Uptown" "Lakeside" 500 510 0 ON_TIME (Some 2) None)
           3); try reflexivity; lia.
Defined.

(** Claim C7: [updateTrain], [delayTrain] and [cancelTrain] with an id that
    no listed train has return the state they were given. *)
Theorem unknown_id_is_noop st i updates minutes :
  (∀ r t, r ∈ trains st → store st !! r = Some t → id t ≠ i) →
  updateTrain i updates st = st
  ∧ delayTrain i minutes st = st
  ∧ cancelTrain i st = st.
Proof.
  intros Hno. unfold updateTrain, delayTrain, cancelTrain, findTrain.
  by rewrite (findById_None _ _ _ Hno).
Qed.

Lemma unknown_id_is_noop_witness :
  let st := seed "a" "b" "c" "d" "e" (initialState 0) in
  updateTrain "zz" (mkUpdates None None None None None (Some (Some 3)) None None) st = st
  ∧ delayTrain "zz" 5 st = st
  ∧ cancelTrain "zz" st = st.
Proof.
  apply (unknown_id_is_noop (seed "a" "b" "c" "d" "e" (initialState 0)) "zz").
  intros r t Hin. vm_compute in Hin.
  repeat (apply elem_of_cons in Hin as [->|Hin];
          [intros [= <-]; discriminate|]).
  by apply elem_of_nil in Hin.
Defined.

(** Claim C8: [toHHMM] brings any integer into [0, 1440) by its double
    remainder, which is the mathematical [mod], and prints the hour and the
    minute of the result as two zero-padded digits each; "08:00" makes the
    round trip through [toMinutes] and [-5] prints as "23:55". *)
Theorem toHHMM_normalises (n : Z) :
  let m := n mod 1440 in
  0 ≤ m < 1440
  ∧ Z.rem (Z.rem n (24 * 60) + 24 * 60) (24 * 60) = m
  ∧ toHHMM n = twoDigits (m / 60) +:+ ":" +:+ twoDigits (m mod 60)
  ∧ toHHMM <$> toMinutes (TStr "08:00") = Some "08:00"%string
  ∧ toHHMM (-5) = "23:55"%string.
Proof.
  cbv zeta. pose proof (Z.mod_pos_bound n 1440 ltac:(lia)) as Hm.
  split; [done|]. split; [apply double_rem_mod|]. split.
  - unfold toHHMM. cbv zeta. rewrite double_rem_mod. by apply toHHMM_format.
  - split; vm_compute; reflexivity.
Qed.

(** Claim C9 as stated fails: [clearAll] announces the clearing after it
    has emptied the log, so the log is not empty when it returns. *)
Lemma clear_leaves_an_announcement :
  ¬ (∀ st, trains (clearAll st) = [] ∧ announcements (clearAll st) = []).
Proof.
  intros H. destruct (H (initialState 0)) as [_ Ha].
  vm_compute in Ha. discriminate.
Qed.

(** Claim C9 (amended): after [clearAll] the train list is empty and the
    announcement log holds one entry, the message that all trains were
    cleared, stamped with the virtual time; earlier entries are gone. *)
Theorem clearAll_result st :
  trains (clearAll st) = []
  ∧ announcements (clearAll st)
    = ["[" +:+ toHHMM (virtualMinutes (sim st)) +:+ "] All trains cleared."].
Proof. split; reflexivity. Qed.

(** Claim C10: the assignment pass changes no property of any train object
    other than [assignedPlatform]. *)
Theorem assignPlatforms_writes_only_assigned (h : list Train) trains n :
  Forall2 (fun t t' =>
             id t' = id t ∧ trainNo t' = trainNo t ∧ from t' = from t
             ∧ to t' = to t ∧ arrive t' = arrive t ∧ depart t' = depart t
             ∧ delayMin t' = delayMin t ∧ status t' = status t
             ∧ platform t' = platform t)
          h (fst (assignPlatforms h trains n)).
Proof. apply assignPlatforms_frame. Qed.

(** * Further properties of the code *)

(** ** Order on the cells of the free-at array *)

Lemma num_le_refl x : x ≠ NaN → num_le x x = true.
Proof. destruct x; simpl; try done. intros _. lia. Qed.

Lemma num_le_trans x y z :
  num_le x y = true → num_le y z = true → num_le x z = true.
Proof. destruct x, y, z; simpl; try done. lia. Qed.

Lemma num_le_mathMax_l x v : x ≠ NaN → num_le x (mathMax x (Fin v)) = true.
Proof. destruct x; simpl; try done. intros _. lia. Qed.

Lemma num_le_mathMax_r x v : x ≠ NaN → num_le (Fin v) (mathMax x (Fin v)) = true.
Proof. destruct x; simpl; try done; intros _; lia. Qed.

Lemma mathMax_not_NaN x v : x ≠ NaN → mathMax x (Fin v) ≠ NaN.
Proof. by destruct x. Qed.

Lemma num_le_Fin_not_NaN v x : num_le (Fin v) x = true → x ≠ NaN.
Proof. by destruct x. Qed.

Lemma soundEnds_replicate n : soundEnds n (replicate n NegInf).
Proof.
  split; [apply length_replicate|].
  apply Forall_forall. intros x Hx. by apply elem_of_replicate in Hx as [-> _].
Qed.

Lemma soundEnds_read n pe i : soundEnds n pe → (i < n)%nat → readEnd pe i ≠ NaN.
Proof.
  intros [Hlen Hall] Hi. unfold readEnd.
  destruct (pe !! i) as [x|] eqn:Hx.
  - simpl. by eapply (Forall_lookup_1 _ _ _ _ Hall).
  - apply lookup_ge_None in Hx. lia.
Qed.

Lemma soundEnds_write n pe i v :
  soundEnds n pe → (i < n)%nat → v ≠ NaN → soundEnds n (writeEnd pe i v).
Proof.
  intros [Hlen Hall] Hi Hv. unfold writeEnd.
  rewrite (proj2 (Nat.ltb_lt _ _)) by lia. split.
  - by rewrite length_insert.
  - by apply Forall_insert.
Qed.

(** ** The free-at array covers the trains already placed *)

Lemma coveredBy_write pe a v o :
  coveredBy pe o →
  coveredBy (writeEnd pe a (mathMax (readEnd pe a) (Fin v))) o.
Proof.
  intros (p & Hp & Hle). exists p. split; [done|].
  destruct (decide (a = p)) as [->|Hne].
  - rewrite readEnd_writeEnd_eq. eapply num_le_trans; [exact Hle|].
    apply num_le_mathMax_l. by eapply num_le_Fin_not_NaN.
  - by rewrite readEnd_writeEnd_ne.
Qed.

Section Booking.
Context (sorted : list nat) (n : nat).
Hypothesis Hn : (1 ≤ n)%nat.

Lemma assignOne_ends (h : list Train) pe r :
  soundEnds n pe → soundEnds n (snd (assignOne sorted n (h, pe) r)).
Proof.
  intros Hpe. unfold assignOne. destruct (h !! r) as [tr|]; [|done].
  cbn [snd]. pose proof (choosePlatform_lt sorted n Hn h pe r tr) as Hlt.
  apply soundEnds_write; [done|done|].
  apply mathMax_not_NaN. by eapply soundEnds_read.
Qed.

Lemma assignOne_covered (h : list Train) pe pre r :
  soundEnds n pe → allCovered pre (h, pe) →
  allCovered (pre ++ [r]) (assignOne sorted n (h, pe) r).
Proof.
  intros Hpe Hcov r' o Hin. unfold assignOne.
  destruct (h !! r) as [tr|] eqn:Hr; cbn [fst snd].
  - pose proof (choosePlatform_lt sorted n Hn h pe r tr) as Hlt.
    destruct (decide (r' = r)) as [->|Hne].
    + rewrite list_lookup_insert_eq by by eapply lookup_lt_Some.
      intros [= <-]. eexists. split; [reflexivity|].
      rewrite readEnd_writeEnd_eq. apply num_le_mathMax_r.
      by eapply soundEnds_read.
    + rewrite list_lookup_insert_ne by done. intros Ho.
      apply coveredBy_write. apply (Hcov r' o); [|done].
      apply elem_of_app in Hin as [?|Hin]; [done|].
      by apply list_elem_of_singleton in Hin.
  - intros Ho. apply (Hcov r' o); [|done].
    apply elem_of_app in Hin as [?|Hin]; [done|].
    apply list_elem_of_singleton in Hin. congruence.
Qed.

Lemma assignFold_covered rs (h : list Train) pe pre :
  soundEnds n pe → allCovered pre (h, pe) →
  soundEnds n (snd (foldl (assignOne sorted n) (h, pe) rs))
  ∧ allCovered (pre ++ rs) (foldl (assignOne sorted n) (h, pe) rs).
Proof.
  revert h pe pre. induction rs as [|r rs IH]; intros h pe pre Hpe Hcov.
  - cbn [foldl]. by rewrite app_nil_r.
  - pose proof (assignOne_ends h pe r Hpe) as H1.
    pose proof (assignOne_covered h pe pre r Hpe Hcov) as H2.
    loop_step E. cbn [snd] in H1.
    replace (pre ++ r :: rs) with ((pre ++ [r]) ++ rs) by by rewrite <- app_assoc.
    by apply IH.
Qed.

Lemma loopAfter_covered (h : list Train) pre :
  soundEnds n (snd (loopAfter h sorted n pre))
  ∧ allCovered pre (loopAfter h sorted n pre).
Proof.
  apply (assignFold_covered pre h (replicate n NegInf) []).
  - apply soundEnds_replicate.
  - intros r' o Hin. by apply elem_of_nil in Hin.
Qed.

End Booking.

Lemma firstFree_Some pe n arr i :
  firstFree pe n arr = Some i →
  (i < n)%nat ∧ num_le (readEnd pe i) (Fin arr) = true.
Proof.
  unfold firstFree. intros H. apply find_some in H as [Hin Hle].
  apply in_seq in Hin. split; [lia|done].
Qed.

Lemma coveredBy_free_no_overlap pe o tr i :
  coveredBy pe o → assignedPlatform o = Some (Z.of_nat i + 1) →
  num_le (readEnd pe i) (Fin (twdArrive (timeWithDelay tr))) = true →
  windowsOverlap o tr = false.
Proof.
  intros (p & Hp & Hle) Ha Hfree. rewrite Hp in Ha.
  assert (p = i) as -> by (injection Ha; lia).
  pose proof (num_le_trans _ _ _ Hle Hfree) as Hda.
  cbn [num_le] in Hda. apply Z.leb_le in Hda.
  unfold windowsOverlap, intervalsOverlap.
  apply andb_false_iff. right. by apply Z.ltb_ge.
Qed.

(** ** Platforms in use *)

Lemma free_cell_exists (pe : list num) :
  (usedEnds pe < length pe)%nat → ∃ j, pe !! j = Some NegInf.
Proof.
  unfold usedEnds. induction pe as [|x pe IH]; cbn [length]; [lia|].
  rewrite filter_cons. destruct (decide (x ≠ NegInf)) as [Hx|Hx].
  - cbn [length]. intros Hlt. destruct IH as [j Hj]; [lia|]. by exists (S j).
  - intros _. exists 0%nat. simpl. f_equal. by destruct (decide (x = NegInf)).
Qed.

Lemma usedEnds_replicate n : usedEnds (replicate n NegInf) = 0%nat.
Proof.
  unfold usedEnds. induction n as [|n IH]; [done|].
  cbn [replicate]. rewrite filter_cons. by destruct (decide (NegInf ≠ NegInf)).
Qed.

Lemma usedEnds_write (pe : list num) i v :
  (i < length pe)%nat → (usedEnds (writeEnd pe i v) ≤ S (usedEnds pe))%nat.
Proof.
  intros Hi. unfold writeEnd. rewrite (proj2 (Nat.ltb_lt _ _)) by done.
  destruct (lookup_lt_is_Some_2 pe i Hi) as [x Hx].
  rewrite insert_take_drop by done.
  rewrite <- (take_drop_middle pe i x Hx) at 3.
  unfold usedEnds. rewrite !filter_app, !filter_cons, !length_app.
  repeat case_decide; cbn [length]; lia.
Qed.

Lemma firstFree_is_Some pe n arr j :
  (j < n)%nat → num_le (readEnd pe j) (Fin arr) = true →
  is_Some (firstFree pe n arr).
Proof.
  intros Hj Hle. unfold firstFree.
  destruct (List.find _ _) as [i|] eqn:Hfind; [by eexists|].
  pose proof (find_none _ _ Hfind j) as Hnone. cbv beta in Hnone.
  rewrite Hle in Hnone. discriminate Hnone. apply in_seq. lia.
Qed.

Lemma windowsOverlap_sym o tr : windowsOverlap o tr = windowsOverlap tr o.
Proof. apply intervalsOverlap_sym. Qed.

(** ** Trains without a manual request, on enough platforms *)

Section NoRequests.
Context (sorted : list nat) (n : nat).
Hypothesis Hn : (1 ≤ n)%nat.

Lemma assignOne_no_request (h : list Train) pe r tr :
  h !! r = Some tr → platform tr = None →
  soundEnds n pe → (usedEnds pe < n)%nat →
  ∃ i, (i < n)%nat
    ∧ num_le (readEnd pe i) (Fin (twdArrive (timeWithDelay tr))) = true
    ∧ assignOne sorted n (h, pe) r =
      (<[r := set_assignedPlatform (Some (Z.of_nat i + 1)) tr]> h,
       writeEnd pe i (mathMax (readEnd pe i) (Fin (twdDepart (timeWithDelay tr))))).
Proof.
  intros Hr Hp [Hlen Hall] Hused.
  destruct (free_cell_exists pe) as [j Hj]; [lia|].
  assert (j < n)%nat as Hjn by (apply lookup_lt_Some in Hj; lia).
  destruct (firstFree_is_Some pe n (twdArrive (timeWithDelay tr)) j Hjn)
    as [i Hi]; [unfold readEnd; by rewrite Hj|].
  destruct (firstFree_Some _ _ _ _ Hi) as [Hin Hle].
  exists i. split; [done|]. split; [done|].
  unfold assignOne, choosePlatform, manualChoice. by rewrite Hr, Hp, Hi.
Qed.

Lemma assignFold_no_double_booking rs (h : list Train) pe pre :
  NoDup (pre ++ rs) → (length (pre ++ rs) ≤ n)%nat →
  soundEnds n pe → allCovered pre (h, pe) → noDoubleBooking pre h →
  (usedEnds pe ≤ length pre)%nat →
  (∀ r o, r ∈ rs → h !! r = Some o → platform o = None) →
  noDoubleBooking (pre ++ rs) (fst (foldl (assignOne sorted n) (h, pe) rs)).
Proof.
  revert h pe pre.
  induction rs as [|r rs IH]; intros h pe pre Hnd Hlen Hpe Hcov Hfree Hused Hnone.
  - cbn [foldl fst]. by rewrite app_nil_r.
  - pose proof (assignOne_ends sorted n Hn h pe r Hpe) as Hpe1.
    pose proof (assignOne_covered sorted n Hn h pe pre r Hpe Hcov) as Hcov1.
    assert ((r ∉ pre) ∧ (r ∉ rs)) as [Hrpre Hrrs].
    { apply NoDup_app in Hnd as (_ & Hdisj & Hnd2).
      apply NoDup_cons in Hnd2 as [? _]. split; [|done].
      intros Hin. apply (Hdisj r Hin). by left. }
    assert (noDoubleBooking (pre ++ [r]) (fst (assignOne sorted n (h, pe) r))
            ∧ (usedEnds (snd (assignOne sorted n (h, pe) r)) ≤ length (pre ++ [r]))%nat
            ∧ ∀ r' o, r' ∈ rs → fst (assignOne sorted n (h, pe) r) !! r' = Some o →
                platform o = None) as (Hfree1 & Hused1 & Hnone1).
    { destruct (h !! r) as [tr|] eqn:Hr.
      - destruct (assignOne_no_request h pe r tr Hr) as (i & Hi & Hle & ->);
          [eapply Hnone; [by left|done] | done | | ].
        { rewrite length_app in Hlen. cbn [length] in Hlen. lia. }
        cbn [fst snd]. split; [|split].
        + intros r1 r2 o1 o2 H1 H2 Hne.
          apply elem_of_app in H1 as [H1|H1]; apply elem_of_app in H2 as [H2|H2];
            try apply list_elem_of_singleton in H1 as ->;
            try apply list_elem_of_singleton in H2 as ->; try done.
          * rewrite !list_lookup_insert_ne by congruence. by apply Hfree.
          * rewrite list_lookup_insert_ne by congruence.
            rewrite list_lookup_insert_eq by by eapply lookup_lt_Some.
            intros Ho1 [= <-] Ha.
            apply (coveredBy_free_no_overlap pe o1 tr i); [by eapply Hcov|done|done].
          * rewrite list_lookup_insert_eq by by eapply lookup_lt_Some.
            rewrite list_lookup_insert_ne by congruence.
            intros [= <-] Ho2 Ha. rewrite windowsOverlap_sym.
            apply (coveredBy_free_no_overlap pe o2 tr i); [by eapply Hcov|done|done].
        + rewrite length_app. cbn [length].
          destruct Hpe as [Hl _].
          pose proof (usedEnds_write pe i
            (mathMax (readEnd pe i) (Fin (twdDepart (timeWithDelay tr))))). lia.
        + intros r' o Hr'. rewrite list_lookup_insert_ne by congruence.
          apply Hnone. by right.
      - unfold assignOne. rewrite Hr. cbn [fst snd]. split; [|split].
        + intros r1 r2 o1 o2 H1 H2 Hne Ho1 Ho2.
          apply elem_of_app in H1 as [H1|H1]; apply elem_of_app in H2 as [H2|H2];
            try apply list_elem_of_singleton in H1 as ->;
            try apply list_elem_of_singleton in H2 as ->; try congruence.
          by apply (Hfree r1 r2).
        + rewrite length_app. lia.
        + intros r' o Hr'. apply Hnone. by right. }
    loop_step E. cbn [fst snd] in *.
    replace (pre ++ r :: rs) with ((pre ++ [r]) ++ rs) in * by by rewrite <- app_assoc.
    by apply IH.
Qed.

End NoRequests.

(** Property X1: a train placed by the first-free search does not overlap any
    train processed before it that sits on the same platform, whether that
    one was placed by the search or through its manual request. *)
Theorem first_free_platform_is_free (h : list Train) trains n pre r post tr i :
  (1 ≤ n)%nat →
  sortBy (arriveKey h) trains = pre ++ r :: post →
  let sorted := sortBy (arriveKey h) trains in
  let s := loopAfter h sorted n pre in
  fst s !! r = Some tr →
  manualChoice sorted n (fst s) r tr = None →
  firstFree (snd s) n (twdArrive (timeWithDelay tr)) = Some i →
  fst (assignOne sorted n s r) !! r
  = Some (set_assignedPlatform (Some (Z.of_nat i + 1)) tr)
  ∧ ∀ r' o, r' ∈ pre → fst s !! r' = Some o →
      assignedPlatform o = Some (Z.of_nat i + 1) → windowsOverlap o tr = false.
Proof.
  intros Hn _. cbv zeta.
  destruct (loopAfter_covered (sortBy (arriveKey h) trains) n Hn h pre) as [_ Hcov].
  destruct (loopAfter h (sortBy (arriveKey h) trains) n pre) as [h0 pe] eqn:E.
  cbn [fst snd] in *. intros Hr Hm Hf. split.
  - unfold assignOne, choosePlatform. rewrite Hr, Hm, Hf. cbn [fst].
    apply list_lookup_insert_eq. by eapply lookup_lt_Some.
  - intros r' o Hin Ho Ha.
    apply (coveredBy_free_no_overlap pe o tr i); [by eapply Hcov|done|].
    by apply firstFree_Some in Hf as [_ ?].
Qed.

(** Two trains back to back: the second is put on platform 1 after the
    first has left it. *)
Lemma first_free_platform_is_free_witness :
  let x := mkTrain "x" "12001" "Central" "Harbor" 490 500 0 ON_TIME (Some 1) None in
  let y := mkTrain "y" "12002" "Uptown" "Lakeside" 500 510 0 ON_TIME None None in
  let s := loopAfter [x; y] [0; 1]%nat 2 [0%nat] in
  fst (assignOne [0; 1]%nat 2 s 1) !! 1%nat
  = Some (set_assignedPlatform (Some 1) y)
  ∧ ∀ r' o, r' ∈ [0%nat] → fst s !! r' = Some o →
      assignedPlatform o = Some 1 → windowsOverlap o y = false.
Proof.
  apply (first_free_platform_is_free
           [mkTrain "x" "12001" "Central" "Harbor" 490 500 0 ON_TIME (Some 1) None;
            mkTrain "y" "12002" "Uptown" "Lakeside" 500 510 0 ON_TIME None None]
           [0; 1]%nat 2 [0%nat] 1 []
           (mkTrain "y" "12002" "Uptown" "Lakeside" 500 510 0 ON_TIME None None)
           0); try reflexivity; lia.
Defined.

(** Property X2: when no listed train carries a manual request and there are
    at least as many platforms as listed trains, no two distinct trains that
    end the pass on the same platform have overlapping effective windows. *)
Theorem no_double_booking_without_requests (h : list Train) trains n :
  NoDup trains → (length trains ≤ n)%nat →
  (∀ r o, r ∈ trains → h !! r = Some o → platform o = None) →
  ∀ r1 r2 o1 o2, r1 ∈ trains → r2 ∈ trains → r1 ≠ r2 →
    fst (assignPlatforms h trains n) !! r1 = Some o1 →
    fst (assignPlatforms h trains n) !! r2 = Some o2 →
    assignedPlatform o1 = assignedPlatform o2 →
    windowsOverlap o1 o2 = false.
Proof.
  intros Hnd Hlen Hnone r1 r2 o1 o2 H1 H2.
  assert (1 ≤ n)%nat as Hn.
  { destruct trains; [by apply elem_of_nil in H1|]. cbn [length] in Hlen. lia. }
  unfold assignPlatforms, assignLoop. cbn [fst].
  pose proof (assignFold_no_double_booking (sortBy (arriveKey h) trains) n Hn
                (sortBy (arriveKey h) trains) h (replicate n NegInf) []) as Hall.
  cbn [app] in Hall. apply Hall.
  - by rewrite sortBy_Permutation.
  - by rewrite sortBy_Permutation.
  - apply soundEnds_replicate.
  - intros r' o Hin. by apply elem_of_nil in Hin.
  - intros ? ? ? ? Hin. by apply elem_of_nil in Hin.
  - rewrite usedEnds_replicate. cbn [length]. lia.
  - intros r o Hin. apply Hnone. by apply elem_of_sortBy in Hin.
  - by apply elem_of_sortBy.
  - by apply elem_of_sortBy.
Qed.

(** Three trains without a request on three platforms: the first and the
    third share platform 1 and do not overlap. *)
Lemma no_double_booking_without_requests_witness :
  let h := [mkTrain "x" "12001" "Central" "Harbor" 490 500 0 ON_TIME None None;
            mkTrain "y" "12002" "Uptown" "Lakeside" 495 510 0 ON_TIME None None;
            mkTrain "z" "12003" "Valley" "Central" 505 520 0 ON_TIME None None] in
  windowsOverlap (set_assignedPlatform (Some 1) (mkTrain "x" "12001" "Central" "Harbor" 490 500 0 ON_TIME None None))
                 (set_assignedPlatform (Some 1) (mkTrain "z" "12003" "Valley" "Central" 505 520 0 ON_TIME None None))
  = false.
Proof.
  apply (no_double_booking_without_requests
           [mkTrain "x" "12001" "Central" "Harbor" 490 500 0 ON_TIME None None;
            mkTrain "y" "12002" "Uptown" "Lakeside" 495 510 0 ON_TIME None None;
            mkTrain "z" "12003" "Valley" "Central" 505 520 0 ON_TIME None None]
           [0; 1; 2]%nat 3 ltac:(compute_done) ltac:(simpl; lia)
           ltac:(intros r o Hin; vm_compute in Hin;
                 repeat (apply elem_of_cons in Hin as [->|Hin];
                         [intros [= <-]; reflexivity|]);
                 by apply elem_of_nil in Hin)
           0 2); try reflexivity; try compute_done; lia.
Defined.

(** ** The automatic choice *)

Lemma num_lt_false_le x y :
  x ≠ NaN → y ≠ NaN → num_lt x y = false → num_le y x = true.
Proof. destruct x, y; simpl; try done; intros _ _ H; lia. Qed.

Lemma num_lt_le_trans x y z :
  num_lt x y = true → num_le y z = true → num_lt x z = true.
Proof. destruct x, y, z; simpl; try done. lia. Qed.

Lemma num_lt_le x y : num_lt x y = true → num_le x y = true.
Proof. destruct x, y; simpl; try done. lia. Qed.

Lemma find_seq_first (f : nat → bool) a k i :
  List.find f (seq a k) = Some i → ∀ j, (a ≤ j < i)%nat → f j = false.
Proof.
  revert a. induction k as [|k IH]; intros a; cbn [seq List.find]; [done|].
  destruct (f a) eqn:Hfa.
  - intros [= <-] j Hj. lia.
  - intros Hfind j Hj. destruct (decide (j = a)) as [->|Hne]; [done|].
    apply (IH (S a) Hfind). lia.
Qed.

Lemma earliestFree_fold pe k :
  (∀ j, (j ≤ k)%nat → readEnd pe j ≠ NaN) →
  let s := foldl (fun '(best, bestEnd) i =>
                    if num_lt (readEnd pe i) bestEnd
                    then (i, readEnd pe i) else (best, bestEnd))
                 (0%nat, readEnd pe 0) (seq 1 k) in
  snd s = readEnd pe (fst s) ∧ (fst s ≤ k)%nat
  ∧ (∀ j, (j ≤ k)%nat → num_le (readEnd pe (fst s)) (readEnd pe j) = true)
  ∧ (∀ j, (j < fst s)%nat → num_lt (readEnd pe (fst s)) (readEnd pe j) = true).
Proof.
  induction k as [|k IH]; intros Hok; cbv zeta.
  - cbn [seq foldl fst snd]. repeat split; try lia.
    intros j Hj. replace j with 0%nat by lia. apply num_le_refl, Hok. lia.
  - rewrite seq_S, foldl_app. cbn [foldl].
    destruct IH as (He & Hb & Hmin & Hfirst); [intros j Hj; apply Hok; lia|].
    destruct (foldl _ _ (seq 1 k)) as [b e]. cbn [fst snd] in *. subst e.
    replace (1 + k)%nat with (S k) by lia.
    destruct (num_lt (readEnd pe (S k)) (readEnd pe b)) eqn:Hlt; cbn [fst snd].
    + repeat split; try lia.
      * intros j Hj. destruct (decide (j = S k)) as [->|Hne].
        -- apply num_le_refl, Hok. lia.
        -- apply num_lt_le. eapply num_lt_le_trans; [exact Hlt|]. apply Hmin. lia.
      * intros j Hj. eapply num_lt_le_trans; [exact Hlt|]. apply Hmin. lia.
    + repeat split; try lia; [|done].
      intros j Hj. destruct (decide (j = S k)) as [->|Hne].
      * apply num_lt_false_le; [apply Hok; lia|apply Hok; lia|done].
      * apply Hmin. lia.
Qed.

Lemma earliestFree_spec pe n :
  (1 ≤ n)%nat → soundEnds n pe →
  (∀ j, (j < n)%nat → num_le (readEnd pe (earliestFree pe n)) (readEnd pe j) = true)
  ∧ (∀ j, (j < earliestFree pe n)%nat →
       num_lt (readEnd pe (earliestFree pe n)) (readEnd pe j) = true).
Proof.
  intros Hn Hpe. unfold earliestFree.
  destruct (earliestFree_fold pe (n - 1)) as (_ & _ & Hmin & Hfirst).
  - intros j Hj. eapply soundEnds_read; [done|lia].
  - split; [|done]. intros j Hj. apply Hmin. lia.
Qed.

(** Property X3: a train whose request is not honoured (it has none, or it
    conflicts) gets the lowest-numbered platform that is free by its
    arrival; when no platform is, it gets the platform that frees up
    earliest, the lowest-numbered one among equals. *)
Theorem automatic_choice sorted n (h : list Train) pe r tr :
  (1 ≤ n)%nat → soundEnds n pe →
  manualChoice sorted n h r tr = None →
  let arr := Fin (twdArrive (timeWithDelay tr)) in
  let p := choosePlatform sorted n h pe r tr in
  (p < n)%nat
  ∧ (∀ j, (j < n)%nat → num_le (readEnd pe j) arr = true →
       num_le (readEnd pe p) arr = true ∧ (p ≤ j)%nat)
  ∧ ((∀ j, (j < n)%nat → num_le (readEnd pe j) arr = false) →
       (∀ j, (j < n)%nat → num_le (readEnd pe p) (readEnd pe j) = true)
       ∧ (∀ j, (j < p)%nat → num_lt (readEnd pe p) (readEnd pe j) = true)).
Proof.
  intros Hn Hpe Hm. cbv zeta.
  split; [by apply choosePlatform_lt|].
  unfold choosePlatform. rewrite Hm.
  destruct (firstFree pe n (twdArrive (timeWithDelay tr))) as [i|] eqn:Hf.
  - destruct (firstFree_Some _ _ _ _ Hf) as [Hi Hle]. split.
    + intros j Hj Hfree. split; [done|].
      destruct (Nat.le_gt_cases i j) as [|Hlt]; [done|].
      pose proof (find_seq_first _ _ _ _ Hf j ltac:(lia)) as Hno.
      cbv beta in Hno. congruence.
    + intros Hnone. specialize (Hnone i Hi). congruence.
  - split.
    + intros j Hj Hfree.
      destruct (firstFree_is_Some pe n _ j Hj Hfree) as [i Hi]. congruence.
    + intros _. by apply earliestFree_spec.
Qed.

(** Two busy platforms, free at 500 and 495, and a train arriving at 490:
    it goes to the second one. *)
Lemma automatic_choice_witness :
  let tr := mkTrain "x" "12001" "Central" "Harbor" 490 500 0 ON_TIME None None in
  let pe := [Fin 500; Fin 495] in
  let p := choosePlatform [0%nat] 2 [tr] pe 0 tr in
  (p < 2)%nat
  ∧ (∀ j, (j < 2)%nat → num_le (readEnd pe j) (Fin 490) = true →
       num_le (readEnd pe p) (Fin 490) = true ∧ (p ≤ j)%nat)
  ∧ ((∀ j, (j < 2)%nat → num_le (readEnd pe j) (Fin 490) = false) →
       (∀ j, (j < 2)%nat → num_le (readEnd pe p) (readEnd pe j) = true)
       ∧ (∀ j, (j < p)%nat → num_lt (readEnd pe p) (readEnd pe j) = true)).
Proof.
  apply (automatic_choice [0%nat] 2
           [mkTrain "x" "12001" "Central" "Harbor" 490 500 0 ON_TIME None None]
           [Fin 500; Fin 495] 0
           (mkTrain "x" "12001" "Central" "Harbor" 490 500 0 ON_TIME None None)).
  - lia.
  - split; [reflexivity|]. repeat constructor; discriminate.
  - reflexivity.
Defined.

(** ** The sort is ascending and stable *)

Lemma insertBy_StronglySorted key x l :
  StronglySorted (fun a b => key a ≤ key b) l →
  StronglySorted (fun a b => key a ≤ key b) (insertBy key x l).
Proof.
  induction 1 as [|y l Hl IH Hy]; cbn [insertBy].
  - repeat constructor.
  - destruct (Z.leb_spec (key x) (key y)) as [Hle|Hgt].
    + constructor; [by constructor|].
      constructor; [done|]. eapply Forall_impl; [exact Hy|].
      intros z Hz. cbv beta in *. lia.
    + constructor; [done|].
      rewrite insertBy_Permutation. constructor; [lia|done].
Qed.

Lemma sortBy_StronglySorted key l :
  StronglySorted (fun a b => key a ≤ key b) (sortBy key l).
Proof.
  unfold sortBy. induction l as [|x l IH]; cbn [foldr]; [constructor|].
  by apply insertBy_StronglySorted.
Qed.

Lemma insertBy_filter key x l k :
  filter (fun r => key r = k) (insertBy key x l)
  = filter (fun r => key r = k) (x :: l).
Proof.
  induction l as [|y l IH]; cbn [insertBy]; [done|].
  destruct (Z.leb_spec (key x) (key y)) as [Hle|Hgt]; [done|].
  rewrite filter_cons, IH, !filter_cons.
  destruct (decide (key y = k)), (decide (key x = k)); try done. lia.
Qed.

Lemma sortBy_filter key l k :
  filter (fun r => key r = k) (sortBy key l) = filter (fun r => key r = k) l.
Proof.
  unfold sortBy. induction l as [|x l IH]; cbn [foldr]; [done|].
  by rewrite insertBy_filter, !filter_cons, IH.
Qed.

(** Property X4: the array returned by [assignPlatforms] holds the listed
    trains, each as often as the list does, in ascending order of effective
    arrival, trains with the same arrival keeping their order in the list. *)
Theorem assignPlatforms_returns_sorted (h : list Train) trains n :
  let sorted := snd (assignPlatforms h trains n) in
  sorted ≡ₚ trains
  ∧ StronglySorted (fun a b => arriveKey h a ≤ arriveKey h b) sorted
  ∧ ∀ k, filter (fun r => arriveKey h r = k) sorted
         = filter (fun r => arriveKey h r = k) trains.
Proof.
  cbv zeta. unfold assignPlatforms. cbn [snd].
  split; [apply sortBy_Permutation|].
  split; [apply sortBy_StronglySorted|]. intros k. apply sortBy_filter.
Qed.

(** Property X5: recomputation leaves [state.trains] holding the same trains,
    in ascending order of the effective departure they have once their
    statuses are recomputed, ties keeping their previous order. *)
Theorem computeDerived_sorts_by_departure st :
  let st' := computeDerived st in
  trains st' ≡ₚ trains st
  ∧ StronglySorted (fun a b => departKey (store st') a ≤ departKey (store st') b)
                   (trains st')
  ∧ ∀ k, filter (fun r => departKey (store st') r = k) (trains st')
         = filter (fun r => departKey (store st') r = k) (trains st).
Proof.
  cbv zeta. unfold computeDerived. cbn [trains store set_trains set_store].
  split; [apply sortBy_Permutation|].
  split; [apply sortBy_StronglySorted|]. intros k. apply sortBy_filter.
Qed.

(** ** What recomputation writes *)

Lemma sameData_refl t : sameData t t.
Proof. by repeat split. Qed.

Lemma sameData_trans t1 t2 t3 : sameData t1 t2 → sameData t2 t3 → sameData t1 t3.
Proof.
  intros (?&?&?&?&?&?&?&?) (?&?&?&?&?&?&?&?). repeat split; congruence.
Qed.

Lemma sameButAssigned_sameData t t' : sameButAssigned t t' → sameData t t'.
Proof. intros (?&?&?&?&?&?&?&?&?). by repeat split. Qed.

Lemma Forall2_sameData_refl (h : list Train) : Forall2 sameData h h.
Proof. induction h; constructor; auto using sameData_refl. Qed.

Lemma updateStatus_frame vm (h : list Train) r :
  Forall2 sameData h (updateStatus vm h r).
Proof.
  unfold updateStatus. destruct (h !! r) as [tr|] eqn:Hr;
    [|apply Forall2_sameData_refl].
  destruct (decide _); [apply Forall2_sameData_refl|].
  replace h with (<[r := tr]> h) at 1 by by apply list_insert_id.
  apply Forall2_insert; [apply Forall2_sameData_refl|]. by repeat split.
Qed.

Lemma statusPass_frame vm trains (h : list Train) :
  Forall2 sameData h (statusPass vm h trains).
Proof.
  unfold statusPass. revert h.
  induction trains as [|r rs IH]; intros h; cbn [foldl].
  - apply Forall2_sameData_refl.
  - eapply Forall2_trans; [|apply updateStatus_frame|apply IH].
    intros ? ? ?. apply sameData_trans.
Qed.

Lemma computeDerived_frame st :
  Forall2 sameData (store st) (store (computeDerived st)).
Proof.
  rewrite store_computeDerived.
  eapply Forall2_trans; [|apply statusPass_frame|].
  - intros ? ? ?. apply sameData_trans.
  - eapply Forall2_impl; [apply assignPlatforms_frame|].
    intros ? ?. apply sameButAssigned_sameData.
Qed.

(** Property X6: recomputation changes nothing of a train object other than
    its status and its assigned platform, and nothing of the state other
    than the train objects and the order of the train list. *)
Theorem computeDerived_writes_status_and_assigned st :
  Forall2 (fun t t' =>
             id t' = id t ∧ trainNo t' = trainNo t ∧ from t' = from t
             ∧ to t' = to t ∧ arrive t' = arrive t ∧ depart t' = depart t
             ∧ delayMin t' = delayMin t ∧ platform t' = platform t)
          (store st) (store (computeDerived st))
  ∧ trains (computeDerived st) ≡ₚ trains st
  ∧ announcements (computeDerived st) = announcements st
  ∧ numPlatforms (computeDerived st) = numPlatforms st
  ∧ sim (computeDerived st) = sim st
  ∧ filterStatus (computeDerived st) = filterStatus st
  ∧ editingId (computeDerived st) = editingId st.
Proof.
  split; [apply computeDerived_frame|].
  split; [apply sortBy_Permutation|]. by repeat split.
Qed.

(** ** Recomputing twice *)

(** The object behind a listed reference after recomputation. *)
Lemma computeDerived_object st r t :
  NoDup (trains st) → r ∈ trains st → store st !! r = Some t →
  ∃ t', store (computeDerived st) !! r = Some t' ∧ sameData t t'
    ∧ status t' = if decide (status t = CANCELLED) then CANCELLED
                  else deriveStatus (virtualMinutes (sim st)) t.
Proof.
  intros Hnd Hin Hr.
  destruct (Forall2_lookup_l _ _ _ _ _ (computeDerived_frame st) Hr)
    as (t' & Ht' & Hsame).
  exists t'. split; [done|]. split; [done|].
  destruct (decide (status t = CANCELLED)) as [Hc|Hc].
  - pose proof (statusPass_cancelled (virtualMinutes (sim st)) (trains st) _ _ _ Hr Hc) as H1.
    destruct (computeDerived_status _ _ _ H1) as (t'' & Ht'' & Hs). congruence.
  - pose proof (statusPass_live (virtualMinutes (sim st)) _ _ _ _ Hnd Hin Hr Hc) as H1.
    destruct (computeDerived_status _ _ _ H1) as (t'' & Ht'' & Hs).
    rewrite Ht' in Ht''. injection Ht'' as <-. by rewrite Hs.
Qed.

Lemma deriveStatus_not_cancelled vm t : deriveStatus vm t ≠ CANCELLED.
Proof. rewrite deriveStatus_window. cbv zeta. by repeat case_decide. Qed.

Lemma deriveStatus_stable vm t t1 :
  sameData t t1 → status t ≠ DELAYED ∨ delayMin t = 0 →
  status t1 = deriveStatus vm t → deriveStatus vm t1 = status t1.
Proof.
  intros (_&_&_&_&Ha&Hd&Hm&_) Hnot Hs.
  rewrite deriveStatus_window. rewrite deriveStatus_window in Hs.
  unfold timeWithDelay in *. cbv zeta in *. cbn [twdArrive twdDepart] in *.
  rewrite Ha, Hd, Hm. revert Hs.
  destruct (decide (status t1 = DELAYED)) as [H1|H1];
    destruct (decide (status t = DELAYED)) as [H0|H0];
    repeat case_decide; intros Hs; try congruence; try lia;
    destruct Hnot; try congruence; try lia.
Qed.

(** Property X7: for a listed train that is not DELAYED on entry, or whose
    delay is 0, a second recomputation at the same clock gives the status
    the first one gave. *)
Theorem second_recomputation_keeps_status st r t :
  NoDup (trains st) → r ∈ trains st → store st !! r = Some t →
  status t ≠ DELAYED ∨ delayMin t = 0 →
  ∃ t1 t2, store (computeDerived st) !! r = Some t1
    ∧ store (computeDerived (computeDerived st)) !! r = Some t2
    ∧ status t2 = status t1.
Proof.
  intros Hnd Hin Hr Hnot.
  destruct (computeDerived_object st r t Hnd Hin Hr) as (t1 & H1 & Hsame & Hs1).
  destruct (computeDerived_object (computeDerived st) r t1)
    as (t2 & H2 & _ & Hs2); try done.
  - cbn [computeDerived trains set_trains]. by rewrite sortBy_Permutation.
  - cbn [computeDerived trains set_trains]. by apply elem_of_sortBy.
  - exists t1, t2. split; [done|]. split; [done|]. rewrite Hs2.
    destruct (decide (status t1 = CANCELLED)) as [Hc|Hc]; [done|].
    change (sim (computeDerived st)) with (sim st).
    apply deriveStatus_stable with t; [done|done|].
    destruct (decide (status t = CANCELLED)) as [Hc0|Hc0]; [congruence|done].
Qed.

Lemma second_recomputation_keeps_status_witness :
  let st := boardWith 497 6 (seedTrains "a" "b" "c" "d" "e") in
  ∃ t1 t2, store (computeDerived st) !! 1%nat = Some t1
    ∧ store (computeDerived (computeDerived st)) !! 1%nat = Some t2
    ∧ status t2 = status t1.
Proof.
  apply (second_recomputation_keeps_status
           (boardWith 497 6 (seedTrains "a" "b" "c" "d" "e")) 1
           (mkTrain "b" "12002" "Uptown" "Lakeside" 495 510 0 ON_TIME None None)).
  - compute_done.
  - compute_done.
  - reflexivity.
  - left. discriminate.
Defined.

(** ** The actions on a train that is found *)

Lemma findById_Some (h : list Train) i trains r t :
  findById h i trains = Some (r, t) → r ∈ trains ∧ h !! r = Some t ∧ id t = i.
Proof.
  induction trains as [|r0 rs IH]; cbn [findById]; [done|].
  destruct (h !! r0) as [t0|] eqn:Hr0.
  - destruct (String.eqb_spec (id t0) i) as [Heq|Hne].
    + intros [= <- <-]. split; [by left|done].
    + intros H. destruct (IH H) as (? & ? & ?). split; [by right|done].
  - intros H. destruct (IH H) as (? & ? & ?). split; [by right|done].
Qed.

Lemma computeDerived_cancelled_object st r t :
  store st !! r = Some t → status t = CANCELLED →
  ∃ t', store (computeDerived st) !! r = Some t' ∧ sameData t t'
        ∧ status t' = CANCELLED.
Proof.
  intros Hr Hc.
  destruct (Forall2_lookup_l _ _ _ _ _ (computeDerived_frame st) Hr)
    as (t' & Ht' & Hsame).
  exists t'. split; [done|]. split; [done|].
  pose proof (statusPass_cancelled (virtualMinutes (sim st)) (trains st) _ _ _ Hr Hc) as H1.
  destruct (computeDerived_status _ _ _ H1) as (t'' & Ht'' & Hs). congruence.
Qed.

(** Property X8: [delayTrain] on an id that is found adds the minutes to the
    delay of that train and recomputes its status on the window shifted by
    the whole delay; the train is never CANCELLED afterwards, even if it
    was before. *)
Theorem delayTrain_known_id st i minutes r tr :
  NoDup (trains st) → findTrain st i = Some (r, tr) →
  let d := delayMin tr + minutes in
  ∃ t', store (delayTrain i minutes st) !! r = Some t'
    ∧ delayMin t' = d ∧ arrive t' = arrive tr ∧ depart t' = depart tr
    ∧ status t' = specStatus (virtualMinutes (sim st))
                    (arrive tr + d) (depart tr + d) d
    ∧ status t' ≠ CANCELLED.
Proof.
  intros Hnd Hfind. cbv zeta. unfold delayTrain. rewrite Hfind.
  destruct (findById_Some _ _ _ _ _ Hfind) as (Hin & Hr & _).
  set (tr' := set_status DELAYED (set_delayMin _ tr)).
  assert (delayMin tr' = delayMin tr + minutes) as Hd'.
  { subst tr'. cbn [delayMin set_status set_delayMin].
    destruct (Z.eqb_spec (delayMin tr) 0); lia. }
  destruct (computeDerived_object
              (announce ("Train " +:+ trainNo tr' +:+ " delayed by " +:+ pretty minutes
                         +:+ " minutes.")
                 (set_store (<[r := tr']> (store st)) st)) r tr')
    as (t' & Ht' & Hsame & Hs); try done.
  { cbn [announce store set_store set_announcements].
    apply list_lookup_insert_eq. by eapply lookup_lt_Some. }
  destruct Hsame as (_&_&_&_&Ha&Hdp&Hm&_).
  rewrite decide_False in Hs by done.
  exists t'. split; [exact Ht'|].
  split; [congruence|]. split; [done|]. split; [done|].
  assert (status t' = specStatus (virtualMinutes (sim st))
                        (arrive tr + (delayMin tr + minutes))
                        (depart tr + (delayMin tr + minutes))
                        (delayMin tr + minutes)) as Hspec.
  { rewrite Hs, deriveStatus_spec. unfold specWindow.
    rewrite decide_True by done. cbn [fst snd]. by rewrite Hd'. }
  split; [done|]. rewrite Hspec. unfold specStatus. by repeat case_decide.
Qed.

(** A cancelled train, delayed by five minutes before its window: it shows
    DELAYED again. *)
Lemma delayTrain_known_id_witness :
  let st := boardWith 480 6
    [mkTrain "x" "12001" "Central" "Harbor" 490 500 0 CANCELLED None None] in
  ∃ t', store (delayTrain "x" 5 st) !! 0%nat = Some t'
    ∧ delayMin t' = 5 ∧ arrive t' = 490 ∧ depart t' = 500
    ∧ status t' = DELAYED
    ∧ status t' ≠ CANCELLED.
Proof.
  apply (delayTrain_known_id
           (boardWith 480 6
              [mkTrain "x" "12001" "Central" "Harbor" 490 500 0 CANCELLED None None])
           "x" 5 0
           (mkTrain "x" "12001" "Central" "Harbor" 490 500 0 CANCELLED None None)).
  - compute_done.
  - reflexivity.
Defined.

(** Property X9: [cancelTrain] on an id that is found leaves that train
    CANCELLED with its data unchanged, and puts the cancellation message,
    stamped with the virtual time, at the head of the log. *)
Theorem cancelTrain_known_id st i r tr :
  findTrain st i = Some (r, tr) →
  (∃ t', store (cancelTrain i st) !! r = Some t'
         ∧ status t' = CANCELLED ∧ sameData tr t')
  ∧ announcements (cancelTrain i st)
    = take 6 (("[" +:+ toHHMM (virtualMinutes (sim st)) +:+ "] "
               +:+ ("Train " +:+ trainNo tr +:+ " has been cancelled."))
              :: announcements st).
Proof.
  intros Hfind. unfold cancelTrain. rewrite Hfind.
  destruct (findById_Some _ _ _ _ _ Hfind) as (Hin & Hr & _).
  split; [|reflexivity].
  destruct (computeDerived_cancelled_object
              (announce ("Train " +:+ trainNo (set_status CANCELLED tr)
                         +:+ " has been cancelled.")
                 (set_store (<[r := set_status CANCELLED tr]> (store st)) st))
              r (set_status CANCELLED tr))
    as (t' & Ht' & Hsame & Hs); try done.
  { cbn [announce store set_store set_announcements].
    apply list_lookup_insert_eq. by eapply lookup_lt_Some. }
  exists t'. split; [exact Ht'|]. split; [done|].
  destruct Hsame as (?&?&?&?&?&?&?&?). by repeat split.
Qed.

Lemma cancelTrain_known_id_witness :
  let st := seed "a" "b" "c" "d" "e" (initialState 0) in
  (∃ t', store (cancelTrain "b" st) !! 1%nat = Some t'
         ∧ status t' = CANCELLED
         ∧ sameData (mkTrain "b" "12002" "Uptown" "Lakeside" 495 510 0 ON_TIME None (Some 2)) t')
  ∧ announcements (cancelTrain "b" st)
    = ["[08:00] Train 12002 has been cancelled."; "[08:00] Sample data seeded."].
Proof.
  apply (cancelTrain_known_id (seed "a" "b" "c" "d" "e" (initialState 0)) "b" 1
           (mkTrain "b" "12002" "Uptown" "Lakeside" 495 510 0 ON_TIME None (Some 2))).
  reflexivity.
Defined.

(** ** What the actions leave alone *)

Lemma actionFrame_refl i st : actionFrame i st st.
Proof.
  repeat split; try done. intros r t Hr _. exists t. split; [done|].
  apply sameData_refl.
Qed.

Lemma actionFrame_found i st r tr tr' message :
  store st !! r = Some tr → id tr = i →
  actionFrame i st
    (renderAll (announce message (set_store (<[r := tr']> (store st)) st))).
Proof.
  intros Hr Hid. split; [apply sortBy_Permutation|].
  split; [done|]. split; [done|]. intros r' t Hr' Hne.
  assert (r ≠ r') as Hrr by congruence.
  apply (Forall2_lookup_l _ _ _ r' t
           (computeDerived_frame
              (announce message (set_store (<[r := tr']> (store st)) st)))).
  cbn [announce store set_store set_announcements].
  by rewrite list_lookup_insert_ne.
Qed.

(** Property X10: [updateTrain], [delayTrain] and [cancelTrain] on the id [i]
    add no train to the list and remove none, keep the platform count and
    the clock, and change the data of no train whose id is not [i]. *)
Theorem actions_change_one_train st i updates minutes :
  actionFrame i st (updateTrain i updates st)
  ∧ actionFrame i st (delayTrain i minutes st)
  ∧ actionFrame i st (cancelTrain i st).
Proof.
  unfold updateTrain, delayTrain, cancelTrain.
  destruct (findTrain st i) as [[r tr]|] eqn:Hfind.
  - destruct (findById_Some _ _ _ _ _ Hfind) as (_ & Hr & Hid).
    split; [|split]; by eapply actionFrame_found.
  - split; [|split]; apply actionFrame_refl.
Qed.

Lemma announcements_computeDerived st :
  announcements (computeDerived st) = announcements st.
Proof. reflexivity. Qed.

Lemma length_announce message st :
  (length (announcements (announce message st)) ≤ 6)%nat.
Proof.
  cbn [announce announcements set_announcements]. rewrite length_take. lia.
Qed.

(** Property X11: a log of at most six announcements has at most six after
    any action, whether the action announces or returns early. *)
Theorem announcements_stay_capped st i updates minutes i1 i2 i3 i4 i5 message :
  (length (announcements st) ≤ 6)%nat →
  (length (announcements (announce message st)) ≤ 6)%nat
  ∧ (length (announcements (updateTrain i updates st)) ≤ 6)%nat
  ∧ (length (announcements (delayTrain i minutes st)) ≤ 6)%nat
  ∧ (length (announcements (cancelTrain i st)) ≤ 6)%nat
  ∧ (length (announcements (clearAll st)) ≤ 6)%nat
  ∧ (length (announcements (seed i1 i2 i3 i4 i5 st)) ≤ 6)%nat.
Proof.
  intros Hlen. split; [apply length_announce|].
  unfold updateTrain, delayTrain, cancelTrain, clearAll, seed, renderAll.
  destruct (findTrain st i) as [[r tr]|]; repeat split; try done;
    rewrite announcements_computeDerived; apply length_announce.
Qed.

(** Six announcements and a seventh: the oldest is dropped. *)
Lemma announcements_stay_capped_witness :
  let st := mkState [] [] ["6"; "5"; "4"; "3"; "2"; "1"] 6
                    (mkSim 480 true 1 0) None None in
  (length (announcements (announce "7" st)) ≤ 6)%nat
  ∧ (length (announcements (updateTrain "x"
        (mkUpdates None None None None None None None None) st)) ≤ 6)%nat
  ∧ (length (announcements (delayTrain "x" 5 st)) ≤ 6)%nat
  ∧ (length (announcements (cancelTrain "x" st)) ≤ 6)%nat
  ∧ (length (announcements (clearAll st)) ≤ 6)%nat
  ∧ (length (announcements (seed "a" "b" "c" "d" "e" st)) ≤ 6)%nat.
Proof.
  apply (announcements_stay_capped
           (mkState [] [] ["6"; "5"; "4"; "3"; "2"; "1"] 6
                    (mkSim 480 true 1 0) None None)).
  simpl. lia.
Defined.

(** Property X12: every action keeps the train list free of repeated and of
    unresolved references. *)
Theorem actions_keep_wellFormed st i updates minutes i1 i2 i3 i4 i5 message :
  wellFormed st →
  wellFormed (computeDerived st)
  ∧ wellFormed (announce message st)
  ∧ wellFormed (updateTrain i updates st)
  ∧ wellFormed (delayTrain i minutes st)
  ∧ wellFormed (cancelTrain i st)
  ∧ wellFormed (clearAll st)
  ∧ wellFormed (seed i1 i2 i3 i4 i5 st).
Proof.
  intros Hwf.
  split; [by apply wellFormed_computeDerived|].
  split; [by apply wellFormed_announce|].
  split; [by apply wellFormed_updateTrain|].
  split; [by apply wellFormed_delayTrain|].
  split; [by apply wellFormed_cancelTrain|].
  split; [apply wellFormed_clearAll|apply wellFormed_seed].
Qed.

Lemma actions_keep_wellFormed_witness :
  let st := boardWith 480 6 (seedTrains "a" "b" "c" "d" "e") in
  wellFormed (computeDerived st)
  ∧ wellFormed (announce "hello" st)
  ∧ wellFormed (updateTrain "b" (mkUpdates None None None (Some 500) None None None None) st)
  ∧ wellFormed (delayTrain "b" 5 st)
  ∧ wellFormed (cancelTrain "b" st)
  ∧ wellFormed (clearAll st)
  ∧ wellFormed (seed "f" "g" "h" "i" "j" st).
Proof.
  apply (actions_keep_wellFormed
           (boardWith 480 6 (seedTrains "a" "b" "c" "d" "e"))).
  split; [compute_done|].
  intros r Hin. vm_compute in Hin.
  repeat (apply elem_of_cons in Hin as [->|Hin]; [by eexists|]).
  by apply elem_of_nil in Hin.
Defined.

(** ** A request without a conflict *)

Lemma sameButAssigned_timeWithDelay t t' :
  sameButAssigned t t' → timeWithDelay t' = timeWithDelay t.
Proof.
  intros (_ & _ & _ & _ & Ha & Hd & Hm & Hs & _).
  unfold timeWithDelay. by rewrite Ha, Hd, Hm, Hs.
Qed.

Lemma assignOne_other sorted n (h : list Train) pe r r' :
  r ≠ r' → fst (assignOne sorted n (h, pe) r') !! r = h !! r.
Proof.
  intros Hne. unfold assignOne. destruct (h !! r'); [|done].
  cbn [fst]. by rewrite list_lookup_insert_ne.
Qed.

Lemma assignFold_notin sorted n rs (h : list Train) pe r :
  r ∉ rs → fst (foldl (assignOne sorted n) (h, pe) rs) !! r = h !! r.
Proof.
  revert h pe. induction rs as [|r' rs IH]; intros h pe Hnot; [done|].
  apply not_elem_of_cons in Hnot as [Hne Hnot].
  pose proof (assignOne_other sorted n h pe r r' Hne) as H1.
  loop_step E. cbn [fst] in H1. by rewrite IH.
Qed.

Lemma existsb_false {A} (f : A → bool) l :
  (∀ x, x ∈ l → f x = false) → existsb f l = false.
Proof.
  intros Hall. destruct (existsb f l) eqn:E; [|done].
  apply existsb_exists in E as (x & Hin & Hfx).
  apply list_elem_of_In in Hin. rewrite (Hall x Hin) in Hfx. done.
Qed.

Lemma assignFold_honoured sorted n rs (h : list Train) pe r tr q :
  NoDup rs → r ∈ rs → h !! r = Some tr → platform tr = Some q →
  (∀ r' o, r' ∈ sorted → r' ≠ r → h !! r' = Some o →
     platform o = Some q → windowsOverlap o tr = false) →
  ∃ t', fst (foldl (assignOne sorted n) (h, pe) rs) !! r = Some t'
        ∧ assignedPlatform t' = Some (clamp q 1 (Z.of_nat n)).
Proof.
  intros Hnd Hin Hr Hq Hfree.
  destruct (list_elem_of_split _ _ Hin) as (pre & post & ->).
  apply NoDup_app in Hnd as (_ & _ & Hnd2).
  apply NoDup_cons in Hnd2 as [Hpost _].
  rewrite foldl_app. cbn [foldl].
  pose proof (assignFold_frame sorted n pre h pe) as Hframe.
  destruct (foldl (assignOne sorted n) (h, pe) pre) as [h0 pe0].
  cbn [fst] in Hframe.
  destruct (Forall2_lookup_l _ _ _ _ _ Hframe Hr) as (tr0 & Hr0 & Hsame).
  assert (platform tr0 = Some q) as Hq0.
  { destruct Hsame as (_&_&_&_&_&_&_&_&Hp). congruence. }
  rewrite (assignOne_honoured sorted n h0 pe0 r tr0 q Hr0 Hq0).
  - rewrite assignFold_notin by done.
    eexists. split; [apply list_lookup_insert_eq; by eapply lookup_lt_Some|done].
  - apply existsb_false. intros r' Hr'.
    destruct (decide (r' = r)) as [->|Hne]; [apply conflictsWith_self|].
    unfold conflictsWith. destruct (h0 !! r') as [o0|] eqn:Ho0; [|done].
    destruct (Forall2_lookup_r _ _ _ _ _ Hframe Ho0) as (o & Ho & Hsame').
    destruct (decide (platform o0 = platform tr0)) as [Hp|Hp].
    + rewrite (sameButAssigned_timeWithDelay _ _ Hsame),
              (sameButAssigned_timeWithDelay _ _ Hsame').
      assert (windowsOverlap o tr = false) as Hov.
      { apply (Hfree r'); try done.
        destruct Hsame' as (_&_&_&_&_&_&_&_&Hp'). congruence. }
      unfold windowsOverlap in Hov. rewrite Hov. apply andb_false_r.
    + rewrite (bool_decide_eq_false_2 _ Hp). by rewrite andb_false_r.
Qed.

(** Property X13: in a list without repeated references, a train whose
    request [q] meets no other listed train with the same request and an
    overlapping effective window ends the pass on platform [clamp q 1 n],
    wherever it stands in the list and whatever the other trains are. *)
Theorem request_without_conflict_is_honoured (h : list Train) trains n r tr q :
  NoDup trains → r ∈ trains → h !! r = Some tr → platform tr = Some q →
  (∀ r' o, r' ∈ trains → r' ≠ r → h !! r' = Some o →
     platform o = Some q → windowsOverlap o tr = false) →
  ∃ t', fst (assignPlatforms h trains n) !! r = Some t'
        ∧ assignedPlatform t' = Some (clamp q 1 (Z.of_nat n)).
Proof.
  intros Hnd Hin Hr Hq Hfree. unfold assignPlatforms, assignLoop. cbn [fst].
  apply (assignFold_honoured _ n _ h _ r tr q); try done.
  - by rewrite sortBy_Permutation.
  - by apply elem_of_sortBy.
  - intros r' o Hr'. apply Hfree. by apply elem_of_sortBy in Hr'.
Qed.

(** The seeded board: 12001 asks for platform 1 and no other train does. *)
Lemma request_without_conflict_is_honoured_witness :
  ∃ t', fst (assignPlatforms (seedTrains "a" "b" "c" "d" "e")
               [0; 1; 2; 3; 4]%nat 6) !! 0%nat = Some t'
        ∧ assignedPlatform t' = Some 1.
Proof.
  apply (request_without_conflict_is_honoured (seedTrains "a" "b" "c" "d" "e")
           [0; 1; 2; 3; 4]%nat 6 0
           (mkTrain "a" "12001" "Central" "Harbor" 490 500 0 ON_TIME (Some 1) None) 1).
  - compute_done.
  - compute_done.
  - reflexivity.
  - reflexivity.
  - intros r' o Hin Hne. vm_compute in Hin.
    repeat (apply elem_of_cons in Hin as [->|Hin];
            [try done; intros [= <-]; discriminate|]).
    by apply elem_of_nil in Hin.
Defined.

(** ** The grid of platforms after recomputation *)

Lemma computeDerived_assigned st r t :
  (1 ≤ numPlatforms st)%nat → r ∈ trains st → store st !! r = Some t →
  ∃ t', store (computeDerived st) !! r = Some t' ∧ sameData t t'
        ∧ assignedInRange (numPlatforms st) t'.
Proof.
  intros Hn Hin Hr.
  destruct (Forall2_lookup_l _ _ _ _ _ (computeDerived_frame st) Hr)
    as (t' & Ht' & Hsame).
  exists t'. split; [done|]. split; [done|].
  rewrite store_computeDerived in Ht'. unfold assignPlatforms, assignLoop in Ht'.
  cbn [fst] in Ht'.
  destruct (Forall2_lookup_l _ _ _ _ _
              (statusPass_frame (virtualMinutes (sim st)) (trains st) (store st)) Hr)
    as (t1 & Ht1 & _).
  edestruct (assignFold_range
               (sortBy (arriveKey (statusPass (virtualMinutes (sim st)) (store st) (trains st)))
                       (trains st))
               (numPlatforms st) Hn) as (t'' & Ht'' & Hrange);
    [apply elem_of_sortBy; exact Hin|by eexists|].
  rewrite Ht' in Ht''. by injection Ht'' as <-.
Qed.

Lemma elem_of_onPlat st p r t :
  r ∈ trains st → store st !! r = Some t →
  r ∈ onPlat st p ↔ shownPlatform t = Some p.
Proof.
  intros Hin Hr. unfold onPlat. rewrite list_elem_of_filter, Hr. simpl.
  split; [by intros [? _]|by split].
Qed.

(** Property X14: with at least one platform, a listed train without a manual
    request is, after recomputation, on the card of exactly one platform,
    and that platform is one of the grid. *)
Theorem train_without_request_on_one_card st r t :
  (1 ≤ numPlatforms st)%nat → r ∈ trains st → store st !! r = Some t →
  platform t = None →
  ∃ p, 1 ≤ p ≤ Z.of_nat (numPlatforms st)
       ∧ ∀ p', r ∈ onPlat (computeDerived st) p' ↔ p' = p.
Proof.
  intros Hn Hin Hr Hp.
  destruct (computeDerived_assigned st r t Hn Hin Hr)
    as (t' & Ht' & Hsame & p & Ha & Hrange).
  exists p. split; [done|]. intros p'.
  rewrite (elem_of_onPlat _ _ _ t'); [|by apply elem_of_sortBy|done].
  unfold shownPlatform. destruct Hsame as (_&_&_&_&_&_&_&Hpl).
  rewrite Hpl, Hp, Ha. split; [by intros [= ->]|by intros ->].
Qed.

Lemma train_without_request_on_one_card_witness :
  let st := boardWith 480 6 (seedTrains "a" "b" "c" "d" "e") in
  ∃ p, 1 ≤ p ≤ 6 ∧ ∀ p', 1%nat ∈ onPlat (computeDerived st) p' ↔ p' = p.
Proof.
  apply (train_without_request_on_one_card
           (boardWith 480 6 (seedTrains "a" "b" "c" "d" "e")) 1
           (mkTrain "b" "12002" "Uptown" "Lakeside" 495 510 0 ON_TIME None None)).
  - simpl. lia.
  - compute_done.
  - reflexivity.
  - reflexivity.
Defined.

(** Property X15: a listed train with a manual request is, after
    recomputation, on the card of the requested platform and on no other,
    whether or not the request was honoured; so it is on no card of the
    grid when the request is not a platform of the station, although it has
    an assigned platform among them. *)
Theorem train_with_request_on_requested_card st r t q :
  (1 ≤ numPlatforms st)%nat → r ∈ trains st → store st !! r = Some t →
  platform t = Some q →
  (∀ p, r ∈ onPlat (computeDerived st) p ↔ p = q)
  ∧ ∃ t' a, store (computeDerived st) !! r = Some t'
      ∧ assignedPlatform t' = Some a ∧ 1 ≤ a ≤ Z.of_nat (numPlatforms st)
      ∧ (¬ 1 ≤ q ≤ Z.of_nat (numPlatforms st) →
         ∀ p, 1 ≤ p ≤ Z.of_nat (numPlatforms st) → r ∉ onPlat (computeDerived st) p).
Proof.
  intros Hn Hin Hr Hq.
  destruct (computeDerived_assigned st r t Hn Hin Hr)
    as (t' & Ht' & Hsame & a & Ha & Hrange).
  assert (∀ p, r ∈ onPlat (computeDerived st) p ↔ p = q) as Hcard.
  { intros p.
    rewrite (elem_of_onPlat _ _ _ t'); [|by apply elem_of_sortBy|done].
    unfold shownPlatform. destruct Hsame as (_&_&_&_&_&_&_&Hpl).
    rewrite Hpl, Hq. split; [by intros [= ->]|by intros ->]. }
  split; [done|]. exists t', a. split; [done|]. split; [done|]. split; [done|].
  intros Hout p Hp Hon. apply Hcard in Hon. subst p. done.
Qed.

(** A request for platform 9 on a station with six: the train is assigned
    platform 6 and shown on none of the six cards. *)
Lemma train_with_request_on_requested_card_witness :
  let st := boardWith 480 6
    [mkTrain "x" "12001" "Central" "Harbor" 490 500 0 ON_TIME (Some 9) None] in
  (∀ p, 0%nat ∈ onPlat (computeDerived st) p ↔ p = 9)
  ∧ ∃ t' a, store (computeDerived st) !! 0%nat = Some t'
      ∧ assignedPlatform t' = Some a ∧ 1 ≤ a ≤ 6
      ∧ (¬ 1 ≤ 9 ≤ 6 →
         ∀ p, 1 ≤ p ≤ 6 → 0%nat ∉ onPlat (computeDerived st) p).
Proof.
  apply (train_with_request_on_requested_card
           (boardWith 480 6
              [mkTrain "x" "12001" "Central" "Harbor" 490 500 0 ON_TIME (Some 9) None])
           0 (mkTrain "x" "12001" "Central" "Harbor" 490 500 0 ON_TIME (Some 9) None) 9).
  - simpl. lia.
  - compute_done.
  - reflexivity.
  - reflexivity.
Defined.

(** ** Round trip of the time format *)

Lemma toMinutes_toHHMM_check :
  forallb (fun m =>
             match toMinutes (TStr (pad2 (m / 60) +:+ ":" +:+ pad2 (Z.rem m 60))) with
             | Some k => k =? m
             | None => false
             end)
          (seqZ 0 1440) = true.
Proof. vm_compute. reflexivity. Qed.

(** Property X16: parsing what [toHHMM] prints gives back the minute of the
    day: [toMinutes(toHHMM(n))] is [n] reduced into [0, 1440), so a time
    between 00:00 and 23:59 survives the edit form unchanged. *)
Theorem toMinutes_toHHMM (n : Z) :
  toMinutes (TStr (toHHMM n)) = Some (n mod 1440).
Proof.
  unfold toHHMM. cbv zeta. rewrite double_rem_mod.
  pose proof (Z.mod_pos_bound n 1440 ltac:(lia)) as Hm.
  pose proof toMinutes_toHHMM_check as Hall. rewrite forallb_forall in Hall.
  specialize (Hall (n mod 1440)).
  destruct (toMinutes _) as [k|].
  - f_equal. apply Z.eqb_eq, Hall, list_elem_of_In, elem_of_seqZ. lia.
  - discriminate Hall. apply list_elem_of_In, elem_of_seqZ. lia.
Qed.

Lemma split_without_separator sep s :
  ¬ In sep (list_ascii_of_string s) → split sep s = [s].
Proof.
  induction s as [|c s IH]; cbn [split list_ascii_of_string]; [done|].
  intros Hnot. destruct (Ascii.eqb_spec c sep) as [->|Hne].
  - exfalso. apply Hnot. by left.
  - rewrite IH; [done|]. intros Hin. apply Hnot. by right.
Qed.

(** Property X17: [toMinutes] of a string without a colon is [NaN], whatever
    digits the string holds: the minutes part is missing. *)
Theorem toMinutes_without_colon s :
  ¬ In ":"%char (list_ascii_of_string s) → toMinutes (TStr s) = None.
Proof.
  intros Hnot. unfold toMinutes. rewrite (split_without_separator _ _ Hnot).
  cbn. by destruct (parseInt s).
Qed.

Lemma toMinutes_without_colon_witness : toMinutes (TStr "0830") = None.
Proof.
  apply (toMinutes_without_colon "0830").
  simpl. intros [H|[H|[H|[H|[]]]]]; discriminate H.
Defined.

(** ** Updating a train that is found *)

(** Property X18: [updateTrain] on an id that is found merges the given
    properties into that train and recomputes its status from the merged
    values: a status given in the update survives only if it is CANCELLED
    (a DELAYED one still selects the shifted window). *)
Theorem updateTrain_known_id st i updates r tr :
  NoDup (trains st) → findTrain st i = Some (r, tr) →
  let merged := assignUpdates updates tr in
  ∃ t', store (updateTrain i updates st) !! r = Some t'
    ∧ sameData merged t'
    ∧ status t' = if decide (status merged = CANCELLED) then CANCELLED
                  else specStatus (virtualMinutes (sim st))
                         (fst (specWindow merged)) (snd (specWindow merged))
                         (delayMin merged).
Proof.
  intros Hnd Hfind. cbv zeta. unfold updateTrain. rewrite Hfind.
  destruct (findById_Some _ _ _ _ _ Hfind) as (Hin & Hr & _).
  destruct (computeDerived_object
              (announce ("Train " +:+ trainNo (assignUpdates updates tr) +:+ " updated.")
                 (set_store (<[r := assignUpdates updates tr]> (store st)) st))
              r (assignUpdates updates tr))
    as (t' & Ht' & Hsame & Hs); try done.
  { cbn [announce store set_store set_announcements].
    apply list_lookup_insert_eq. by eapply lookup_lt_Some. }
  exists t'. split; [exact Ht'|]. split; [done|].
  rewrite Hs. case_decide; [done|]. apply deriveStatus_spec.
Qed.

(** The edit form sends ON_TIME for a train that is boarding: the train
    stays BOARDING. *)
Lemma updateTrain_known_id_witness :
  let st := boardWith 497 6
    [mkTrain "x" "12001" "Central" "Harbor" 480 500 0 BOARDING None None] in
  let merged := mkTrain "x" "12001" "Central" "Harbor" 480 500 0 ON_TIME (Some 2) None in
  ∃ t', store (updateTrain "x"
                 (mkUpdates None None None None None (Some (Some 2)) (Some ON_TIME) None)
                 st) !! 0%nat = Some t'
    ∧ sameData merged t'
    ∧ status t' = BOARDING.
Proof.
  apply (updateTrain_known_id
           (boardWith 497 6
              [mkTrain "x" "12001" "Central" "Harbor" 480 500 0 BOARDING None None])
           "x" (mkUpdates None None None None None (Some (Some 2)) (Some ON_TIME) None)
           0 (mkTrain "x" "12001" "Central" "Harbor" 480 500 0 BOARDING None None)).
  - compute_done.
  - reflexivity.
Defined.

(** ** Delays add up *)

Lemma actions_frame_delay st i minutes :
  actionFrame i st (delayTrain i minutes st).
Proof.
  unfold delayTrain. destruct (findTrain st i) as [[r tr]|] eqn:Hfind.
  - destruct (findById_Some _ _ _ _ _ Hfind) as (_ & Hr & Hid).
    by eapply actionFrame_found.
  - apply actionFrame_refl.
Qed.

Lemma findById_unique (h : list Train) i trains r t :
  r ∈ trains → h !! r = Some t → id t = i →
  (∀ r2 t2, r2 ∈ trains → h !! r2 = Some t2 → id t2 = i → r2 = r) →
  findById h i trains = Some (r, t).
Proof.
  induction trains as [|r0 rs IH]; intros Hin Hr Hid Huniq.
  - by apply elem_of_nil in Hin.
  - cbn [findById]. destruct (h !! r0) as [t0|] eqn:Hr0.
    + destruct (String.eqb_spec (id t0) i) as [Heq|Hne].
      * assert (r0 = r) as -> by (eapply Huniq; [by left|done|done]).
        congruence.
      * apply elem_of_cons in Hin as [->|Hin]; [congruence|].
        apply IH; try done. intros r2 t2 H2. apply Huniq. by right.
    + apply elem_of_cons in Hin as [->|Hin]; [congruence|].
      apply IH; try done. intros r2 t2 H2. apply Huniq. by right.
Qed.

Lemma delayTrain_found st i minutes r tr :
  NoDup (trains st) → findTrain st i = Some (r, tr) →
  ∃ t', store (delayTrain i minutes st) !! r = Some t'
        ∧ id t' = id tr ∧ delayMin t' = delayMin tr + minutes.
Proof.
  intros Hnd Hfind. unfold delayTrain. rewrite Hfind.
  destruct (findById_Some _ _ _ _ _ Hfind) as (Hin & Hr & _).
  set (tr' := set_status DELAYED (set_delayMin _ tr)).
  destruct (computeDerived_object
              (announce ("Train " +:+ trainNo tr' +:+ " delayed by " +:+ pretty minutes
                         +:+ " minutes.")
                 (set_store (<[r := tr']> (store st)) st)) r tr')
    as (t' & Ht' & Hsame & _); try done.
  { cbn [announce store set_store set_announcements].
    apply list_lookup_insert_eq. by eapply lookup_lt_Some. }
  destruct Hsame as (Hid&_&_&_&_&_&Hm&_).
  exists t'. split; [exact Ht'|]. split; [done|]. rewrite Hm. subst tr'.
  cbn [delayMin set_status set_delayMin].
  destruct (Z.eqb_spec (delayMin tr) 0); lia.
Qed.

Lemma length_store_delayTrain st i minutes :
  length (store (delayTrain i minutes st)) = length (store st).
Proof.
  unfold delayTrain. destruct (findTrain st i) as [[r tr]|]; [|done].
  unfold renderAll. rewrite length_store_computeDerived.
  cbn [announce store set_store set_announcements]. apply length_insert.
Qed.

(** Property X19: when no two listed trains share an id, delaying the same
    train twice adds both amounts to its delay. *)
Theorem delays_add_up st i a b r tr :
  NoDup (trains st) → uniqueIds st → findTrain st i = Some (r, tr) →
  ∃ t', store (delayTrain i b (delayTrain i a st)) !! r = Some t'
        ∧ delayMin t' = delayMin tr + a + b.
Proof.
  intros Hnd Huniq Hfind.
  destruct (findById_Some _ _ _ _ _ Hfind) as (Hin & Hr & Hid).
  destruct (delayTrain_found st i a r tr Hnd Hfind) as (t1 & H1 & Hid1 & Hd1).
  destruct (actions_frame_delay st i a) as (Hperm & _ & _ & Hframe).
  assert (findTrain (delayTrain i a st) i = Some (r, t1)) as Hfind1.
  { apply findById_unique; [by rewrite Hperm|done|congruence|].
    intros r2 t2 Hin2 H2 Hid2. rewrite Hperm in Hin2.
    destruct (lookup_lt_is_Some_2 (store st) r2) as [t0 H0].
    { rewrite <- (length_store_delayTrain st i a). by eapply lookup_lt_Some. }
    destruct (decide (id t0 = i)) as [Hi0|Hi0].
    - eapply Huniq; [exact Hin2|exact Hin|exact H0|exact Hr|congruence].
    - destruct (Hframe r2 t0 H0 Hi0) as (t' & Ht' & Hsame).
      destruct Hsame as (Hid'&_). congruence. }
  destruct (delayTrain_found (delayTrain i a st) i b r t1) as (t2 & H2 & _ & Hd2);
    [by rewrite Hperm|done|].
  exists t2. split; [done|]. lia.
Qed.

Lemma delays_add_up_witness :
  let st := boardWith 480 6 (seedTrains "a" "b" "c" "d" "e") in
  ∃ t', store (delayTrain "c" 10 (delayTrain "c" 5 st)) !! 2%nat = Some t'
        ∧ delayMin t' = 5 + 5 + 10.
Proof.
  apply (delays_add_up (boardWith 480 6 (seedTrains "a" "b" "c" "d" "e")) "c" 5 10 2
           (mkTrain "c" "12003" "Valley" "Central" 505 520 5 DELAYED (Some 2) None)).
  - compute_done.
  - intros r1 r2 t1 t2 H1 H2. vm_compute in H1, H2.
    repeat (apply elem_of_cons in H1 as [->|H1]);
      try (by apply elem_of_nil in H1);
      repeat (apply elem_of_cons in H2 as [->|H2]);
      try (by apply elem_of_nil in H2);
      intros [= <-] [= <-]; try done; discriminate.
  - reflexivity.
Defined.

(** ** The pass does not read the platform assigned before *)

Lemma insertBy_ext key key' x l :
  (∀ y, key y = key' y) → insertBy key x l = insertBy key' x l.
Proof.
  intros Hext. induction l as [|y l IH]; cbn [insertBy]; [done|].
  by rewrite !Hext, IH.
Qed.

Lemma sortBy_ext key key' l :
  (∀ y, key y = key' y) → sortBy key l = sortBy key' l.
Proof.
  intros Hext. unfold sortBy. induction l as [|x l IH]; cbn [foldr]; [done|].
  rewrite IH. by apply insertBy_ext.
Qed.

Lemma arriveKey_sameButAssigned (h h' : list Train) r :
  Forall2 sameButAssigned h h' → arriveKey h r = arriveKey h' r.
Proof.
  intros Hrel. unfold arriveKey.
  destruct (h !! r) as [t|] eqn:Hr.
  - destruct (Forall2_lookup_l _ _ _ _ _ Hrel Hr) as (t' & -> & Hsame).
    cbn [from_option]. by rewrite (sameButAssigned_timeWithDelay _ _ Hsame).
  - pose proof (Forall2_length _ _ _ Hrel) as Hlen.
    apply lookup_ge_None in Hr.
    rewrite (lookup_ge_None_2 h' r) by lia. done.
Qed.

Lemma conflictsWith_sameButAssigned (h h' : list Train) r tr tr' r' :
  Forall2 sameButAssigned h h' → sameButAssigned tr tr' →
  conflictsWith h r tr r' = conflictsWith h' r tr' r'.
Proof.
  intros Hrel Hsame. unfold conflictsWith.
  destruct (h !! r') as [o|] eqn:Ho.
  - destruct (Forall2_lookup_l _ _ _ _ _ Hrel Ho) as (o' & -> & Hsame').
    rewrite (sameButAssigned_timeWithDelay _ _ Hsame),
            (sameButAssigned_timeWithDelay _ _ Hsame').
    destruct Hsame as (_&_&_&_&_&_&_&_&->).
    destruct Hsame' as (_&_&_&_&_&_&_&_&->). done.
  - pose proof (Forall2_length _ _ _ Hrel) as Hlen.
    apply lookup_ge_None in Ho.
    rewrite (lookup_ge_None_2 h' r') by lia. done.
Qed.

Lemma choosePlatform_sameButAssigned sorted n (h h' : list Train) pe r tr tr' :
  Forall2 sameButAssigned h h' → sameButAssigned tr tr' →
  choosePlatform sorted n h pe r tr = choosePlatform sorted n h' pe r tr'.
Proof.
  intros Hrel Hsame. unfold choosePlatform, manualChoice.
  rewrite (sameButAssigned_timeWithDelay _ _ Hsame).
  assert (existsb (conflictsWith h r tr) sorted
          = existsb (conflictsWith h' r tr') sorted) as ->.
  { induction sorted as [|r' rs IH]; cbn [existsb]; [done|].
    by rewrite IH, (conflictsWith_sameButAssigned h h' r tr tr' r'). }
  destruct Hsame as (_&_&_&_&_&_&_&_&->). done.
Qed.

(** The two runs agree on the trains of [done]. *)
Lemma assignFold_sameButAssigned sorted n rs (h h' : list Train) pe done :
  Forall2 sameButAssigned h h' →
  (∀ r t1, r ∈ done → h !! r = Some t1 →
     ∃ t2, h' !! r = Some t2 ∧ assignedPlatform t2 = assignedPlatform t1) →
  ∀ r t1, r ∈ done ++ rs →
    fst (foldl (assignOne sorted n) (h, pe) rs) !! r = Some t1 →
    ∃ t2, fst (foldl (assignOne sorted n) (h', pe) rs) !! r = Some t2
          ∧ assignedPlatform t2 = assignedPlatform t1.
Proof.
  revert h h' pe done.
  induction rs as [|r0 rs IH]; intros h h' pe done Hrel Hdone r t1 Hin.
  - rewrite app_nil_r in Hin. cbn [foldl fst]. by apply Hdone.
  - cbn [foldl].
    replace (done ++ r0 :: rs) with ((done ++ [r0]) ++ rs) in Hin
      by by rewrite <- app_assoc.
    unfold assignOne at 2 4.
    destruct (h !! r0) as [tr|] eqn:Hr0.
    + destruct (Forall2_lookup_l _ _ _ _ _ Hrel Hr0) as (tr' & Hr0' & Hsame).
      rewrite Hr0'.
      rewrite <- (choosePlatform_sameButAssigned sorted n h h' pe r0 tr tr' Hrel Hsame).
      rewrite <- (sameButAssigned_timeWithDelay _ _ Hsame).
      apply (IH _ _ _ (done ++ [r0])); [| |done].
      * apply Forall2_insert; [done|].
        destruct Hsame as (?&?&?&?&?&?&?&?&?). by repeat split.
      * intros r2 t2 Hin2. destruct (decide (r2 = r0)) as [->|Hne].
        -- rewrite !list_lookup_insert_eq by by eapply lookup_lt_Some.
           intros [= <-]. by eexists.
        -- rewrite !list_lookup_insert_ne by done. apply Hdone.
           apply elem_of_app in Hin2 as [?|Hin2]; [done|].
           by apply list_elem_of_singleton in Hin2.
    + pose proof (Forall2_length _ _ _ Hrel) as Hlen.
      apply lookup_ge_None in Hr0.
      rewrite (lookup_ge_None_2 h' r0) by lia.
      apply (IH _ _ _ (done ++ [r0])); [done| |done].
      intros r2 t2 Hin2 H2. apply Hdone; [|done].
      apply elem_of_app in Hin2 as [?|Hin2]; [done|].
      apply list_elem_of_singleton in Hin2. subst r2.
      apply lookup_lt_Some in H2. lia.
Qed.

(** Property X20: the platforms [assignPlatforms] gives do not depend on the
    platforms assigned before the call: from two stores that differ only in
    [assignedPlatform], it returns the same array and assigns every listed
    train the same platform. *)
Theorem assignment_ignores_previous_assignment (h h' : list Train) trains n :
  Forall2 sameButAssigned h h' →
  snd (assignPlatforms h trains n) = snd (assignPlatforms h' trains n)
  ∧ ∀ r t1, r ∈ trains → fst (assignPlatforms h trains n) !! r = Some t1 →
      ∃ t2, fst (assignPlatforms h' trains n) !! r = Some t2
            ∧ assignedPlatform t2 = assignedPlatform t1.
Proof.
  intros Hrel. unfold assignPlatforms, assignLoop. cbn [fst snd].
  assert (sortBy (arriveKey h) trains = sortBy (arriveKey h') trains) as Hsort.
  { apply sortBy_ext. intros r. by apply arriveKey_sameButAssigned. }
  split; [done|]. rewrite <- Hsort. intros r t1 Hin.
  apply (assignFold_sameButAssigned _ n _ h h' _ []); [done| |].
  - intros ? ? Hnil. by apply elem_of_nil in Hnil.
  - cbn [app]. by apply elem_of_sortBy.
Qed.

(** The seeded board once fresh and once with the platforms of an earlier
    pass still on the objects. *)
Lemma assignment_ignores_previous_assignment_witness :
  let h := seedTrains "a" "b" "c" "d" "e" in
  let h' := set_assignedPlatform (Some 4) <$> h in
  snd (assignPlatforms h [0; 1; 2; 3; 4]%nat 6)
  = snd (assignPlatforms h' [0; 1; 2; 3; 4]%nat 6)
  ∧ ∀ r t1, r ∈ [0; 1; 2; 3; 4]%nat →
      fst (assignPlatforms h [0; 1; 2; 3; 4]%nat 6) !! r = Some t1 →
      ∃ t2, fst (assignPlatforms h' [0; 1; 2; 3; 4]%nat 6) !! r = Some t2
            ∧ assignedPlatform t2 = assignedPlatform t1.
Proof.
  apply (assignment_ignores_previous_assignment
           (seedTrains "a" "b" "c" "d" "e")
           (set_assignedPlatform (Some 4) <$> seedTrains "a" "b" "c" "d" "e")
           [0; 1; 2; 3; 4]%nat 6).
  repeat constructor.
Defined.
